(** * linkedin-automation: the note pipeline and the connection workflow

    A shallow embedding of [linkedin-modules.py] (class [LinkedInConnector])
    and of [llama_client.py] ([generate_text]), with the properties of the
    note sanitizer, the note generator, the click helper, the per-profile
    workflow and the batch runner.

    Python text is a sequence of Unicode code points; the browser, the HTTP
    service and the profile file are an environment whose answers may depend
    on everything that happened before. *)

From Stdlib Require Import NArith List String Ascii Bool Lia.
From stdpp Require Import base option list gmap strings.
Import ListNotations.

Local Open Scope list_scope.

(** ** Text: Python [str] as a list of code points *)

Module Text.

Local Open Scope N_scope.

Definition codepoint := N.
Definition text := list codepoint.

(** A literal of the source, character by character. *)
Fixpoint of_string (s : string) : text :=
  match s with
  | EmptyString => []
  | String a s' => N_of_ascii a :: of_string s'
  end.

(** The code points of the Basic Multilingual Plane, the class
    [U+0000-U+FFFF] of the regular expression in [clean_text]. *)
Definition is_bmp (c : codepoint) : bool := c <=? 0xFFFF.

(** [str.isspace] on one code point: the characters that [str.split()] and
    [str.strip()] treat as whitespace. *)
Definition isspace (c : codepoint) : bool :=
  ((0x09 <=? c) && (c <=? 0x0D)) || ((0x1C <=? c) && (c <=? 0x20))
  || (c =? 0x85) || (c =? 0xA0) || (c =? 0x1680)
  || ((0x2000 <=? c) && (c <=? 0x200A))
  || (c =? 0x2028) || (c =? 0x2029) || (c =? 0x202F) || (c =? 0x205F)
  || (c =? 0x3000).

Definition space : codepoint := 0x20.

(** [str.split()] without a separator: the maximal runs of characters that
    are not whitespace, in order. [cur] is the word being scanned. *)
Fixpoint split_from (cur : text) (t : text) : list text :=
  match t with
  | [] => match cur with [] => [] | _ => [cur] end
  | c :: t' =>
      if isspace c
      then match cur with
           | [] => split_from [] t'
           | _ => cur :: split_from [] t'
           end
      else split_from (cur ++ [c]) t'
  end.

Definition split (t : text) : list text := split_from [] t.

(** [sep.join(words)] *)
Fixpoint join (sep : text) (ws : list text) : text :=
  match ws with
  | [] => []
  | w :: ws' =>
      match ws' with
      | [] => w
      | _ => w ++ sep ++ join sep ws'
      end
  end.

(** [str.strip()] *)
Fixpoint lstrip (t : text) : text :=
  match t with
  | [] => []
  | c :: t' => if isspace c then lstrip t' else t
  end.

Definition rstrip (t : text) : text := rev (lstrip (rev t)).
Definition strip (t : text) : text := rstrip (lstrip t).

(** [t.startswith(p)] *)
Fixpoint startswith (t p : text) : bool :=
  match p with
  | [] => true
  | a :: p' =>
      match t with
      | [] => false
      | b :: t' => (a =? b) && startswith t' p'
      end
  end.

(** [p in t] for two strings: [p] occurs in [t] as a substring. *)
Fixpoint contains (p t : text) : bool :=
  startswith t p ||
  match t with
  | [] => false
  | _ :: t' => contains p t'
  end.

End Text.
Import Text.

(** ** The sanitizer *)

(** [re.sub(r'[^U+0000-U+FFFF]', '', text)]: every character outside the
    class is deleted. *)
Definition re_sub_non_bmp (t : text) : text := List.filter is_bmp t.

(** [LinkedInConnector.clean_text] *)
Definition clean_text (t : text) : text :=
  let cleaned_text := re_sub_non_bmp t in
  let cleaned_text := join [space] (split cleaned_text) in
  cleaned_text.

(** The reading of the sanitizer in which each maximal whitespace run of the
    text, wherever it stands, is replaced by one space. It is compared with
    [clean_text] below. *)
Fixpoint collapse_from (in_run : bool) (t : text) : text :=
  match t with
  | [] => []
  | c :: t' =>
      if isspace c
      then if in_run then collapse_from true t' else space :: collapse_from true t'
      else c :: collapse_from false t'
  end.

Definition collapse_runs (t : text) : text := collapse_from false t.

(** ** Values, exceptions and observable events *)

(** A value read from JSON: a string, or anything else (number, null, list,
    object) with the text that [str()] gives for it. *)
Inductive pyval :=
| PStr (t : text)
| POther (repr : text).

Definition render (v : pyval) : text :=
  match v with PStr t => t | POther r => r end.

(** The exceptions the code can meet; all of them derive from [Exception]. *)
Inductive exn :=
| KeyError (key : string)
| AttributeError
| ConnectionError
| TimeoutException
| OtherException (name : string).

Inductive result (A : Type) :=
| Ok (a : A)
| Raise (e : exn).
Arguments Ok {A} a.
Arguments Raise {A} e.

(** A page element handle. *)
Definition elem := nat.

Inductive locator :=
| ById (id : string)
| ByCss (selector : string).

(** An argument of [time.sleep]: a literal, or a value drawn by
    [random.uniform lo hi]. *)
Inductive duration :=
| Seconds (n : nat)
| Uniform (lo hi : nat).

(** What a printed line interpolates. *)
Inductive arg :=
| AStr (s : string)
| AText (t : text)
| AVal (v : pyval)
| ANat (n : nat)
| AExn (e : exn)
| ADelay (d : duration).

(** The arguments passed to a script. *)
Inductive sarg :=
| SElem (e : elem)
| SText (t : text).

(** The body of [requests.post(url, json=data)]. *)
Record request := {
  req_url : string;
  req_model : text;
  req_prompt : text;
  req_stream : bool
}.

(** What [response.json()] evaluates to when it parses. *)
Inductive pyjson :=
| JDict (d : gmap string pyval)
| JOther.

Record response := {
  status_code : N;
  resp_json : result pyjson;
  resp_text : text
}.

(** Every interaction with the outside world, in the order it happens. *)
Inductive event :=
| EPrint (template : string) (args : list arg)
| ESleep (d : duration)
| EInstall
| EChrome (options : list string)
| EGet (url : text)
| ECurrentUrl
| EFindElements (selector : string)
| EScript (script : string) (args : list sarg)
| EQuit
| EWaitPresence (loc : locator)
| EWaitPresenceAll (loc : locator)
| EWaitClickable (loc : locator)
| EIsDisplayed (e : elem)
| EIsEnabled (e : elem)
| EElemText (e : elem)
| ESendKeys (e : elem) (keys : text)
| EClick (e : elem)
| EPost (r : request)
| EOpen (file : string).

Definition trace := list event.

(** The environment: the browser driver, the waits, the page elements, the
    generation service and the profile file. Each answer is a function of
    the history of events before the call, so an environment may change its
    mind between two identical calls. [str_lower] is Python's [str.lower];
    [console_encodes] tells which texts the encoding of the console can
    write, so which texts [print] accepts. *)
Record Env := {
  chrome_install : trace -> result unit;
  chrome_start : trace -> list string -> result unit;
  driver_get : trace -> text -> result unit;
  driver_current_url : trace -> result text;
  driver_find_elements : trace -> string -> result (list elem);
  driver_execute_script : trace -> string -> list sarg -> result unit;
  driver_quit : trace -> result unit;
  wait_presence : trace -> locator -> result elem;
  wait_presence_all : trace -> locator -> result (list elem);
  wait_clickable : trace -> locator -> result elem;
  elem_is_displayed : trace -> elem -> result bool;
  elem_is_enabled : trace -> elem -> result bool;
  elem_text : trace -> elem -> result text;
  elem_send_keys : trace -> elem -> text -> result unit;
  elem_click : trace -> elem -> result unit;
  requests_post : trace -> request -> result response;
  json_load : trace -> string -> result (list (gmap string pyval));
  str_lower : text -> text;
  console_encodes : text -> bool
}.

(** The fields of [self]. [driver] tells whether [self.driver] (and with it
    [self.wait]) has been assigned. *)
Record Connector := {
  email : text;
  password : text;
  headless : bool;
  driver : bool
}.

(** ** Computations: state, emitted events and exceptions *)

(** A computation reads [self] and the history so far and yields a value or
    an exception, the new [self] and the events it emitted itself. *)
Definition M (A : Type) : Type :=
  Connector -> trace -> result A * Connector * list event.

Definition ret {A} (a : A) : M A := fun c _ => (Ok a, c, []).

Definition raise {A} (e : exn) : M A := fun c _ => (Raise e, c, []).

Definition bind {A B} (m : M A) (f : A -> M B) : M B := fun c tr =>
  match m c tr with
  | (Ok a, c1, o1) =>
      match f a c1 (tr ++ o1) with
      | (r, c2, o2) => (r, c2, o1 ++ o2)
      end
  | (Raise e, c1, o1) => (Raise e, c1, o1)
  end.

Notation "x <- m ;; k" := (bind m (fun x => k))
  (at level 100, m at next level, right associativity).
Notation "m ;;; k" := (bind m (fun _ => k))
  (at level 100, right associativity).

(** [try: m except Exception as e: h e] *)
Definition try_except {A} (m : M A) (h : exn -> M A) : M A := fun c tr =>
  match m c tr with
  | (Ok a, c1, o1) => (Ok a, c1, o1)
  | (Raise e, c1, o1) =>
      match h e c1 (tr ++ o1) with
      | (r, c2, o2) => (r, c2, o1 ++ o2)
      end
  end.

(** [try: m finally: f]: [f] runs whatever [m] did; an exception of [f]
    replaces the outcome of [m]. *)
Definition try_finally {A} (m : M A) (f : M unit) : M A := fun c tr =>
  match m c tr with
  | (r, c1, o1) =>
      match f c1 (tr ++ o1) with
      | (Ok _, c2, o2) => (r, c2, o1 ++ o2)
      | (Raise e, c2, o2) => (Raise e, c2, o1 ++ o2)
      end
  end.

Definition emit (ev : event) : M unit := fun c _ => (Ok tt, c, [ev]).

(** A call to the environment, answered from the history before it. *)
Definition call {A} (ev : event) (answer : trace -> result A) : M A :=
  fun c tr => (answer tr, c, [ev]).

Definition get_self : M Connector := fun c _ => (Ok c, c, []).

(** A call through [self.driver] or [self.wait]: while they are [None] the
    attribute access fails before anything reaches the browser. *)
Definition via_driver {A} (m : M A) : M A :=
  c <- get_self ;;
  if driver c then m else raise AttributeError.

(** A [for] loop whose body may leave it early: [Some v] leaves the loop
    with [v] ([return] or [break]), [None] goes on with the next item. *)
Fixpoint for_each {A R} (xs : list A) (body : A -> M (option R)) : M (option R) :=
  match xs with
  | [] => ret None
  | x :: xs' =>
      r <- body x ;;
      match r with
      | Some v => ret (Some v)
      | None => for_each xs' body
      end
  end.

Definition sleep (n : nat) : M unit := emit (ESleep (Seconds n)).

(** [d[k]] *)
Definition getitem (d : gmap string pyval) (k : string) : M pyval :=
  match d !! k with
  | Some v => ret v
  | None => raise (KeyError k)
  end.

(** [body.get(k, default)]: only a dict has [get]. *)
Definition json_get (body : pyjson) (k : string) (default : pyval) : M pyval :=
  match body with
  | JDict d => ret (match d !! k with Some v => v | None => default end)
  | JOther => raise AttributeError
  end.

(** ** The connector, method by method *)

Section Connector.

Variable env : Env.

(** *** [print] *)

(** Whether the console can write an argument of a printed line. Text that
    comes from outside the program (a profile field, an address, a model
    name, a reply of the service) is written when [console_encodes] says
    so. The literals of the code are ASCII, and numbers, delays and the
    messages of exceptions are taken to be writable on every console. *)
Definition arg_printable (a : arg) : bool :=
  match a with
  | AText t => console_encodes env t
  | AVal v => console_encodes env (render v)
  | _ => true
  end.

Definition printable (args : list arg) : bool := forallb arg_printable args.

(** [print(f"...")]: the line is written, or nothing is written and
    [UnicodeEncodeError] is raised because the console cannot encode it. *)
Definition print (template : string) (args : list arg) : M unit :=
  if printable args
  then emit (EPrint template args)
  else raise (OtherException "UnicodeEncodeError").

(** *** The driver, the waits and the elements as the code calls them *)

Definition get (url : text) : M unit :=
  via_driver (call (EGet url) (fun tr => driver_get env tr url)).

Definition current_url : M text :=
  via_driver (call ECurrentUrl (driver_current_url env)).

Definition find_elements (selector : string) : M (list elem) :=
  via_driver (call (EFindElements selector)
                (fun tr => driver_find_elements env tr selector)).

Definition execute_script (script : string) (args : list sarg) : M unit :=
  via_driver (call (EScript script args)
                (fun tr => driver_execute_script env tr script args)).

Definition quit : M unit :=
  via_driver (call EQuit (driver_quit env)).

Definition until_presence (loc : locator) : M elem :=
  via_driver (call (EWaitPresence loc) (fun tr => wait_presence env tr loc)).

Definition until_presence_all (loc : locator) : M (list elem) :=
  via_driver (call (EWaitPresenceAll loc)
                (fun tr => wait_presence_all env tr loc)).

Definition until_clickable (loc : locator) : M elem :=
  via_driver (call (EWaitClickable loc) (fun tr => wait_clickable env tr loc)).

Definition is_displayed (e : elem) : M bool :=
  call (EIsDisplayed e) (fun tr => elem_is_displayed env tr e).

Definition is_enabled (e : elem) : M bool :=
  call (EIsEnabled e) (fun tr => elem_is_enabled env tr e).

(** [e.text.lower()] *)
Definition text_lower (e : elem) : M text :=
  t <- call (EElemText e) (fun tr => elem_text env tr e) ;;
  ret (str_lower env t).

Definition send_keys (e : elem) (keys : text) : M unit :=
  call (ESendKeys e keys) (fun tr => elem_send_keys env tr e keys).

Definition click (e : elem) : M unit :=
  call (EClick e) (fun tr => elem_click env tr e).

Definition post (r : request) : M response :=
  call (EPost r) (fun tr => requests_post env tr r).

(** [with open(file) as f: json.load(f)] *)
Definition load_profiles (file : string) : M (list (gmap string pyval)) :=
  call (EOpen file) (fun tr => json_load env tr file).

(** *** [setup_driver] *)

(** The arguments and the experimental options, in the order they are added. *)
Definition chrome_options (c : Connector) : list string :=
  (if headless c then ["--headless"] else [])
  ++ ["--disable-notifications"; "--start-maximized";
      "--disable-blink-features=AutomationControlled";
      "excludeSwitches=['enable-automation']";
      "useAutomationExtension=False"].

(** [self.driver = ...; self.wait = ...] *)
Definition with_driver (c : Connector) : Connector :=
  {| email := email c; password := password c;
     headless := headless c; driver := true |}.

Definition assign_driver : M unit := fun c _ => (Ok tt, with_driver c, []).

Definition MASK_SCRIPT : string :=
  "Object.defineProperty(navigator, 'webdriver', {get: () => undefined})".

Definition setup_driver : M unit :=
  c <- get_self ;;
  let options := chrome_options c in
  call EInstall (chrome_install env) ;;;
  call (EChrome options) (fun tr => chrome_start env tr options) ;;;
  assign_driver ;;;
  execute_script MASK_SCRIPT [].

(** *** [generate_connection_note] *)

Definition FALLBACK_NOTE : text :=
  of_string "Hi, I'd love to connect and expand our professional network.".

Definition OLLAMA_URL : string := "http://localhost:11434/api/generate".

Definition note_limit : nat := 200.

Definition newline : text := [10%N].

Definition note_prompt (name position : pyval) : text :=
  of_string "Generate a brief, professional LinkedIn connection note for "
  ++ render name ++ of_string ", " ++ newline
  ++ of_string "            who is a " ++ render position
  ++ of_string ". Keep it under 200 characters. " ++ newline
  ++ of_string "            Do not include any emojis or special characters and just give the output message that can be directly pasted there.".

(** [v.strip()]: only a string has [strip]. *)
Definition val_strip (v : pyval) : M text :=
  match v with
  | PStr t => ret (strip t)
  | POther _ => raise AttributeError
  end.

(** [response.json()] *)
Definition response_json (r : response) : M pyjson :=
  match resp_json r with
  | Ok j => ret j
  | Raise e => raise e
  end.

Definition note_request (name position : pyval) : request :=
  {| req_url := OLLAMA_URL; req_model := of_string "llama2";
     req_prompt := note_prompt name position; req_stream := false |}.

Definition LENGTH_WARNING : string :=
  "Warning: Generated note length ({}) exceeds limit. Truncating...".

(** The body of the [try] block. *)
Definition note_attempt (profile_data : gmap string pyval) : M text :=
  name <- getitem profile_data "name" ;;
  position <- getitem profile_data "current_position" ;;
  let data := note_request name position in
  response <- post data ;;
  if (status_code response =? 200)%N then
    body <- response_json response ;;
    field <- json_get body "response" (PStr []) ;;
    note <- val_strip field ;;
    let cleaned_note := clean_text note in
    (if note_limit <? length cleaned_note
     then print LENGTH_WARNING [ANat (length cleaned_note)]
     else ret tt) ;;;
    ret (firstn note_limit cleaned_note)
  else
    print "Error from Ollama API: {}" [AText (resp_text response)] ;;;
    ret FALLBACK_NOTE.

Definition generate_connection_note (profile_data : gmap string pyval) : M text :=
  try_except
    (note_attempt profile_data)
    (fun e =>
       print "Error generating connection note: {}" [AExn e] ;;;
       ret FALLBACK_NOTE).

(** *** [login] *)

Definition login : M bool :=
  try_except
    (print "Logging into LinkedIn..." [] ;;;
     get (of_string "https://www.linkedin.com/login") ;;;
     sleep 2 ;;;
     print "Entering email..." [] ;;;
     email_field <- until_presence (ById "username") ;;
     c <- get_self ;;
     send_keys email_field (email c) ;;;
     print "Entering password..." [] ;;;
     password_field <- until_presence (ById "password") ;;
     send_keys password_field (password c) ;;;
     print "Clicking login button..." [] ;;;
     login_button <- until_clickable (ByCss "button[type='submit']") ;;
     click login_button ;;;
     sleep 5 ;;;
     u1 <- current_url ;;
     landed <- (if contains (of_string "feed") u1 then ret true
                else u2 <- current_url ;; ret (contains (of_string "mynetwork") u2)) ;;
     if landed : bool then
       print "Successfully logged in!" [] ;;;
       ret true
     else
       u3 <- current_url ;;
       print "Login may have failed. Current URL: {}" [AText u3] ;;;
       ret false)
    (fun e =>
       print "Login failed: {}" [AExn e] ;;;
       ret false).

(** *** [click_button_safely] *)

Definition max_attempts : nat := 3.

Definition SCROLL_SCRIPT : string := "arguments[0].scrollIntoView(true);".
Definition CLICK_SCRIPT : string := "arguments[0].click();".

(** One pass of the loop body: [Some true] is the [return True], [None] lets
    the loop go on. *)
Definition click_attempt (button : elem) (action_name : string) (attempt : nat)
  : M (option bool) :=
  try_except
    (shown <- is_displayed button ;;
     usable <- (if shown : bool then is_enabled button else ret false) ;;
     if usable : bool then
       execute_script SCROLL_SCRIPT [SElem button] ;;;
       sleep 1 ;;;
       execute_script CLICK_SCRIPT [SElem button] ;;;
       print "Successfully clicked {} button" [AStr action_name] ;;;
       ret (Some true)
     else ret None)
    (fun e =>
       print "Attempt {} failed to click {} button: {}"
         [ANat (attempt + 1); AStr action_name; AExn e] ;;;
       if attempt <? max_attempts - 1
       then sleep 2 ;;; ret None
       else ret None).

Definition click_button_safely (button : elem) (action_name : string) : M bool :=
  r <- for_each (seq 0 max_attempts) (click_attempt button action_name) ;;
  match r with
  | Some b => ret b
  | None => ret false
  end.

(** *** [find_and_click_send_button] *)

Definition possible_selectors : list string :=
  ["button[aria-label*='Send now']";
   "button[aria-label*='send']";
   "button[type='submit']";
   "button.artdeco-button--primary";
   ".artdeco-modal__confirm-dialog-btn"].

Definition find_and_click_send_button : M bool :=
  r <- for_each possible_selectors (fun selector =>
         try_except
           (buttons <- find_elements selector ;;
            for_each buttons (fun button =>
              try_except
                (button_text <- text_lower button ;;
                 if contains (of_string "send") button_text
                    || contains (of_string "done") button_text
                 then
                   clicked <- click_button_safely button "Send" ;;
                   if clicked : bool then ret (Some true) else ret None
                 else ret None)
                (fun _ => ret None)))
           (fun _ => ret None)) ;;
  match r with
  | Some b => ret b
  | None => ret false
  end.

(** *** [connect_with_profile] *)

Definition connect_selector : string :=
  "button[aria-label*='Connect'], button[aria-label*='connect']".

Definition add_note_selector : string :=
  "button[aria-label*='Add a note'], button[aria-label*='note'], button.artdeco-button--secondary".

Definition possible_textareas : list string :=
  ["textarea#custom-message";
   "textarea.send-invite__custom-message";
   "textarea[name='message']";
   "textarea.connect-button-send-invite__custom-message";
   "textarea[aria-label*='message']";
   "textarea.artdeco-text-input--input"].

(** The literal of the source, with its line breaks and indentation. *)
Definition input_event_script : string :=
  "
                                        var event = new Event('input', {
                                            bubbles: true,
                                            cancelable: true,
                                        });
                                        arguments[0].dispatchEvent(event);
                                        ".

(** The loop over [add_note_buttons]; the value is [add_note_clicked]. *)
Definition click_add_note (add_note_buttons : list elem) : M bool :=
  r <- for_each add_note_buttons (fun add_note_button =>
         try_except
           (button_text <- text_lower add_note_button ;;
            if contains (of_string "note") button_text
               || contains (of_string "message") button_text
            then
              clicked <- click_button_safely add_note_button "Add note" ;;
              if clicked : bool then ret (Some tt) else ret None
            else ret None)
           (fun _ => ret None)) ;;
  match r with
  | Some _ => ret true
  | None => ret false
  end.

(** The loop over [possible_textareas]; the value is [textarea_found]. *)
Definition fill_textarea (note : text) : M bool :=
  r <- for_each possible_textareas (fun selector =>
         try_except
           (note_field <- until_presence (ByCss selector) ;;
            until_clickable (ByCss selector) ;;;
            print "Found textarea using selector: {}" [AStr selector] ;;;
            execute_script "arguments[0].scrollIntoView({block: 'center'});"
              [SElem note_field] ;;;
            sleep 1 ;;;
            execute_script "arguments[0].value = arguments[1];"
              [SElem note_field; SText note] ;;;
            execute_script input_event_script [SElem note_field] ;;;
            ret (Some tt))
           (fun e =>
              print "Failed with selector {}: {}" [AStr selector; AExn e] ;;;
              ret None)) ;;
  match r with
  | Some _ => ret true
  | None => ret false
  end.

(** The note dialog for one connect button that was clicked: [Some b] is a
    [return b] of [connect_with_profile], [None] a [continue]. *)
Definition note_dialog (profile_data : gmap string pyval) : M (option bool) :=
  print "Looking for 'Add a note' button..." [] ;;;
  add_note_buttons <- until_presence_all (ByCss add_note_selector) ;;
  add_note_clicked <- click_add_note add_note_buttons ;;
  if negb add_note_clicked then
    print "Could not click Add note button" [] ;;;
    ret None
  else
    sleep 2 ;;;
    print "Generating connection note..." [] ;;;
    note <- generate_connection_note profile_data ;;
    print "Generated note ({} chars): {}" [ANat (length note); AText note] ;;;
    textarea_found <- fill_textarea note ;;
    if negb textarea_found then
      print "Could not find note textarea" [] ;;;
      ret None
    else
      sleep 2 ;;;
      print "Attempting to click send button..." [] ;;;
      sent <- find_and_click_send_button ;;
      if sent : bool then
        print "Successfully clicked send button" [] ;;;
        sleep 2 ;;;
        ret (Some true)
      else
        print "Failed to click send button" [] ;;;
        ret (Some false).

(** The body of the loop over [connect_buttons]. *)
Definition try_connect_button (profile_data : gmap string pyval) (button : elem)
  : M (option bool) :=
  try_except
    (clicked <- click_button_safely button "Connect" ;;
     if negb clicked then ret None
     else
       sleep 3 ;;;
       try_except
         (note_dialog profile_data)
         (fun e =>
            match e with
            | TimeoutException =>
                print "Timeout while handling note dialog: {}" [AExn e] ;;;
                ret None
            | _ =>
                print "Error while handling note dialog: {}" [AExn e] ;;;
                ret None
            end))
    (fun e =>
       print "Error with connect button: {}" [AExn e] ;;;
       ret None).

(** [profile_url.startswith('http')] and the scheme put in front. *)
Definition normalize_url (profile_url : pyval) : M text :=
  match profile_url with
  | PStr u =>
      if startswith u (of_string "http") then ret u
      else ret (of_string "https://" ++ u)
  | POther _ => raise AttributeError
  end.

Definition connect_with_profile (profile_url : pyval)
    (profile_data : gmap string pyval) : M bool :=
  try_except
    (profile_url <- normalize_url profile_url ;;
     print "Navigating to profile: {}" [AText profile_url] ;;;
     get profile_url ;;;
     sleep 5 ;;;
     print "Looking for Connect button..." [] ;;;
     connect_buttons <- find_elements connect_selector ;;
     r <- match connect_buttons with
          | [] => ret None
          | _ =>
              print "Found {} potential connect buttons"
                [ANat (length connect_buttons)] ;;;
              for_each connect_buttons (try_connect_button profile_data)
          end ;;
     match r with
     | Some b => ret b
     | None =>
         print "Could not find or click Connect button" [] ;;;
         ret false
     end)
    (fun e =>
       print "Error connecting with profile: {}" [AExn e] ;;;
       ret false).

(** *** [run] *)

(** What a call of [run] evaluates to: [None], or a sequence of outcomes,
    each a profile identity with a success flag. *)
Inductive pyret :=
| PyNone
| PyOutcomes (outcomes : list (pyval * bool)).

Definition pause : duration := Uniform 20 40.

(** The body of the loop over [profiles]. *)
Definition process_profile (profile : gmap string pyval) : M (option pyret) :=
  name <- getitem profile "name" ;;
  print "\nProcessing profile: {}" [AVal name] ;;;
  url <- getitem profile "url" ;;
  connected <- connect_with_profile url profile ;;
  (if connected : bool then
     name <- getitem profile "name" ;;
     print "Successfully processed {}" [AVal name]
   else
     name <- getitem profile "name" ;;
     print "Failed to process {}" [AVal name]) ;;;
  let delay := pause in
  print "Waiting {:.0f} seconds before next profile..." [ADelay delay] ;;;
  emit (ESleep delay) ;;;
  ret None.

(** The [finally] block. *)
Definition teardown : M unit :=
  c <- get_self ;;
  if driver c then
    quit ;;;
    print "Browser closed." []
  else ret tt.

(** What follows [setup_driver] inside the [try] block. *)
Definition session (profile_file : string) : M pyret :=
  logged_in <- login ;;
  if negb logged_in then
    print "Login failed. Exiting..." [] ;;;
    ret PyNone
  else
    profiles <- load_profiles profile_file ;;
    r <- for_each profiles process_profile ;;
    match r with
    | Some v => ret v
    | None => ret PyNone
    end.

Definition run (profile_file : string) : M pyret :=
  try_finally
    (try_except
       (setup_driver ;;;
        session profile_file)
       (fun e =>
          print "Error during execution: {}" [AExn e] ;;;
          ret PyNone))
    teardown.

End Connector.

(** ** [llama_client.generate_text] *)

Module LlamaClient.

Definition text_request (prompt model : text) : request :=
  {| req_url := OLLAMA_URL; req_model := model;
     req_prompt := prompt; req_stream := false |}.

Definition SENDING : string := "Sending request to Ollama API with model: {}".

Definition generate_text (env : Env) (prompt model : text) : M text :=
  try_except
    (let data := text_request prompt model in
     print env SENDING [AText model] ;;;
     response <- post env data ;;
     if (status_code response =? 200)%N then
       result <- response_json response ;;
       field <- json_get result "response" (PStr []) ;;
       val_strip field
     else
       print env "Error: API returned status code {}"
         [ANat (N.to_nat (status_code response))] ;;;
       print env "Response: {}" [AText (resp_text response)] ;;;
       ret [])
    (fun e =>
       match e with
       | ConnectionError =>
           print env "Error: Could not connect to Ollama. Please make sure Ollama is running." [] ;;;
           print env "Start Ollama by opening a new terminal and running: ollama run llama2" [] ;;;
           ret []
       | _ =>
           print env "Error generating text: {}" [AExn e] ;;;
           ret []
       end).

End LlamaClient.

(** ** [LinkedInConnector.__init__] and [main] *)

(** [not v] for what [os.getenv] gives: [None] or a string. *)
Definition unset (v : option text) : bool :=
  match v with
  | None => true
  | Some [] => true
  | Some (_ :: _) => false
  end.

(** [LinkedInConnector(headless)]: [load_dotenv()] comes first and is not
    guarded, so what it raises leaves the constructor; then the two
    variables are read as the environment of the process holds them after
    it: a [ValueError] when a credential is missing or empty, otherwise a
    connector without a driver. *)
Definition init (load_dotenv : result unit)
    (getenv_email getenv_password : option text) (headless : bool)
  : result Connector :=
  match load_dotenv with
  | Raise e => Raise e
  | Ok _ =>
      if unset getenv_email || unset getenv_password
      then Raise (OtherException "ValueError")
      else Ok {| email := default [] getenv_email;
                 password := default [] getenv_password;
                 headless := headless;
                 driver := false |}
  end.

(** [main]: nothing catches what [__init__] or [run] raise. *)
Definition main (env : Env) (load_dotenv : result unit)
    (getenv_email getenv_password : option text)
    (tr : trace) : result unit * list event :=
  match init load_dotenv getenv_email getenv_password false with
  | Raise e => (Raise e, [])
  | Ok connector =>
      match run env "profile_data.json" connector tr with
      | (Ok _, _, out) => (Ok tt, out)
      | (Raise e, _, out) => (Raise e, out)
      end
  end.


(** * What the properties are stated with *)

(** ** Shapes of text *)

(** A word of [split]: not empty and free of whitespace. *)
Definition word (w : text) : Prop :=
  w <> [] /\ Forall (fun c => isspace c = false) w.

(** The shape of sanitized text, read off the text itself: it starts with a
    character that is no whitespace, every whitespace character in it is the
    plain space U+0020, and a space is always followed by a character that
    is no whitespace. *)
Fixpoint single_spaced (t : text) : bool :=
  match t with
  | [] => true
  | c :: t' =>
      negb (isspace c) &&
      match t' with
      | [] => true
      | s :: t'' =>
          if isspace s
          then (s =? space)%N && negb (match t'' with [] => true | _ => false end)
               && single_spaced t''
          else single_spaced t'
      end
  end.

(** ** Outcomes, final states and emitted events *)

Definition outcome {A} (x : result A * Connector * list event) : result A := x.1.1.
Definition final {A} (x : result A * Connector * list event) : Connector := x.1.2.
Definition emitted {A} (x : result A * Connector * list event) : list event := x.2.

(** [spec P Q m]: from every state and history, [m] leaves [self] as it was,
    emits only events in [P] and ends in an outcome in [Q]. *)
Definition spec {A} (P : event -> Prop) (Q : result A -> Prop) (m : M A) : Prop :=
  forall c tr,
    Q (outcome (m c tr)) /\ final (m c tr) = c /\ Forall P (emitted (m c tr)).

Definition any {A} : result A -> Prop := fun _ => True.

Definition returns {A} : result A -> Prop :=
  fun r => match r with Ok _ => True | Raise _ => False end.

(** ** Reading a trace *)

(** The inter-profile pauses: the sleeps whose duration is drawn at random,
    with the bounds of the draw. *)
Definition pause_of (ev : event) : option (nat * nat) :=
  match ev with
  | ESleep (Uniform lo hi) => Some (lo, hi)
  | _ => None
  end.

Definition pauses (out : list event) : list (nat * nat) := omap pause_of out.

(** The per-profile outcome lines: the profile's name with the success flag. *)
Definition outcome_of (ev : event) : option (pyval * bool) :=
  match ev with
  | EPrint template [AVal name] =>
      if String.eqb template "Successfully processed {}" then Some (name, true)
      else if String.eqb template "Failed to process {}" then Some (name, false)
      else None
  | _ => None
  end.

Definition reported_outcomes (out : list event) : list (pyval * bool) :=
  omap outcome_of out.

(** The start of a profile: the line that opens the loop body of [run]. *)
Definition is_profile_start (ev : event) : bool :=
  match ev with
  | EPrint template _ => String.eqb template "\nProcessing profile: {}"
  | _ => false
  end.

(** The first line of every call of [connect_with_profile]: the navigation
    line, or the error line when the address is no string. *)
Definition is_connect_start (ev : event) : bool :=
  match ev with
  | EPrint template _ =>
      String.eqb template "Navigating to profile: {}"
      || String.eqb template "Error connecting with profile: {}"
  | _ => false
  end.

(** An event of a run that has not touched any profile. *)
Definition idle (ev : event) : Prop :=
  is_profile_start ev = false
  /\ is_connect_start ev = false
  /\ outcome_of ev = None.

(** The send step: its announcement and the searches for a send button. *)
Definition is_send_step (ev : event) : bool :=
  match ev with
  | EPrint template _ => String.eqb template "Attempting to click send button..."
  | EFindElements selector => existsb (String.eqb selector) possible_selectors
  | _ => false
  end.

Definition is_quit (ev : event) : bool :=
  match ev with
  | EQuit => true
  | _ => false
  end.

(** The length warning of the note generator. *)
Definition is_length_warning (ev : event) : bool :=
  match ev with
  | EPrint template _ => String.eqb template LENGTH_WARNING
  | _ => false
  end.

Definition warned (out : list event) : bool := existsb is_length_warning out.

(** The visibility checks and the backoff sleeps of [click_button_safely]. *)
Definition is_check (ev : event) : bool :=
  match ev with
  | EIsDisplayed _ => true
  | _ => false
  end.

Definition is_backoff (ev : event) : bool :=
  match ev with
  | ESleep (Seconds 2) => true
  | _ => false
  end.

Definition count (f : event -> bool) (out : list event) : nat :=
  length (List.filter f out).

(** The events of one attempt of [click_button_safely] on a visible, enabled
    button whose script click raises [e]. *)
Definition failed_click (button : elem) (action_name : string) (e : exn) (attempt : nat)
  : list event :=
  [EIsDisplayed button; EIsEnabled button;
   EScript SCROLL_SCRIPT [SElem button]; ESleep (Seconds 1);
   EScript CLICK_SCRIPT [SElem button];
   EPrint "Attempt {} failed to click {} button: {}"
     [ANat (attempt + 1); AStr action_name; AExn e]].

(** ** Example environments *)

Definition ascii_lower (t : text) : text :=
  map (fun c => if ((65 <=? c) && (c <=? 90))%N then (c + 32)%N else c) t.

(** A UTF-8 console: it writes every text without a surrogate code point. *)
Definition utf8_encodes (t : text) : bool :=
  forallb (fun c => negb ((0xD800 <=? c) && (c <=? 0xDFFF))%N) t.

(** A browser in which every call succeeds, configurable in what the claims
    depend on: the address after login, the buttons every search finds and
    their text, what visibility checks and scripts answer, whether a
    textarea is present, what the generation service answers and which
    profiles the file holds. *)
Definition page_env
    (landing : text)
    (buttons : list elem) (label : text)
    (shown : trace -> elem -> result bool)
    (script : trace -> string -> list sarg -> result unit)
    (textarea : string -> result elem)
    (answer : result response)
    (profiles : list (gmap string pyval)) : Env :=
  {| chrome_install := fun _ => Ok tt;
     chrome_start := fun _ _ => Ok tt;
     driver_get := fun _ _ => Ok tt;
     driver_current_url := fun _ => Ok landing;
     driver_find_elements := fun _ _ => Ok buttons;
     driver_execute_script := script;
     driver_quit := fun _ => Ok tt;
     wait_presence := fun _ loc =>
       match loc with
       | ById _ => Ok 0
       | ByCss selector => textarea selector
       end;
     wait_presence_all := fun _ _ => Ok buttons;
     wait_clickable := fun _ _ => Ok 0;
     elem_is_displayed := shown;
     elem_is_enabled := fun _ _ => Ok true;
     elem_text := fun _ _ => Ok label;
     elem_send_keys := fun _ _ _ => Ok tt;
     elem_click := fun _ _ => Ok tt;
     requests_post := fun _ _ => answer;
     json_load := fun _ _ => Ok profiles;
     str_lower := ascii_lower;
     console_encodes := utf8_encodes |}.

Definition FEED : text := of_string "https://www.linkedin.com/feed/".
Definition CHECKPOINT : text := of_string "https://www.linkedin.com/checkpoint/challenge".

Definition jane : gmap string pyval :=
  {[ "name" := PStr (of_string "Jane Doe");
     "url" := PStr (of_string "linkedin.com/in/janedoe");
     "current_position" := PStr (of_string "Engineer") ]}.

Definition fresh : Connector :=
  {| email := of_string "user@example.com"; password := of_string "secret";
     headless := false; driver := false |}.

Definition started : Connector :=
  {| email := of_string "user@example.com"; password := of_string "secret";
     headless := false; driver := true |}.

Definition always_shown : trace -> elem -> result bool := fun _ _ => Ok true.
Definition never_shown : trace -> elem -> result bool := fun _ _ => Ok false.

(** Hidden at the first check of a call, shown from the second check on. *)
Definition shown_late : trace -> elem -> result bool :=
  fun tr _ => Ok (existsb is_check tr).

Definition scripts_run : trace -> string -> list sarg -> result unit :=
  fun _ _ _ => Ok tt.

(** Scrolling works, the script click is intercepted. *)
Definition click_intercepted : trace -> string -> list sarg -> result unit :=
  fun _ script _ =>
    if String.eqb script CLICK_SCRIPT
    then Raise (OtherException "ElementClickInterceptedException")
    else Ok tt.

Definition no_textarea : string -> result elem := fun _ => Raise TimeoutException.

Definition unreachable : result response := Raise ConnectionError.

Definition replies (t : text) : result response :=
  Ok {| status_code := 200;
        resp_json := Ok (JDict {[ "response" := PStr t ]});
        resp_text := t |}.

(** Pages for the click helper: a button shown late, a button never shown,
    a button whose click is intercepted. *)
Definition late_env : Env :=
  page_env FEED [] [] shown_late scripts_run no_textarea unreachable [].

Definition hidden_env : Env :=
  page_env FEED [] [] never_shown scripts_run no_textarea unreachable [].

Definition intercepting_env : Env :=
  page_env FEED [] [] always_shown click_intercepted no_textarea unreachable [].

(** A profile page on which the connect button and the note button click
    and no textarea ever appears. *)
Definition dialog_env : Env :=
  page_env FEED [1] (of_string "Add a Note") always_shown scripts_run
    no_textarea unreachable [].

(** A page without connect buttons, behind a working login. *)
Definition plain_env (answer : result response) (profiles : list (gmap string pyval)) : Env :=
  page_env FEED [] [] always_shown scripts_run no_textarea answer profiles.

Definition long_reply : text := repeat 97%N 250.
Definition blank_reply : text := repeat space 250.

(** A profile without a name. *)
Definition nameless : gmap string pyval :=
  {[ "url" := PStr (of_string "linkedin.com/in/janedoe");
     "current_position" := PStr (of_string "Engineer") ]}.

(** ** Outcomes of the note generator *)

Definition within_limit (r : result text) : Prop :=
  match r with
  | Ok note => length note <= note_limit
  | Raise _ => True
  end.


(** ** The standalone client, answer by answer *)

(** The text [generate_text] is to return for an answer of the service:
    the stripped [response] field of a 200 answer that is a JSON object, the
    empty string for everything else. *)
Definition text_of_answer (answer : result response) : text :=
  match answer with
  | Ok resp =>
      if (status_code resp =? 200)%N then
        match resp_json resp with
        | Ok (JDict d) =>
            match d !! "response" with
            | Some (PStr r) => strip r
            | Some (POther _) => []
            | None => []
            end
        | Ok JOther => []
        | Raise _ => []
        end
      else []
  | Raise _ => []
  end.

(** ** Outcomes and events of the workflow *)

Definition raises {A} : result A -> Prop :=
  fun r => match r with Ok _ => False | Raise _ => True end.

(** A pass of a loop body that does not leave the function. *)
Definition continues {R} : result (option R) -> Prop :=
  fun r => match r with Ok (Some _) => False | _ => True end.

Definition not_send (ev : event) : Prop := is_send_step ev = false.

(** ** Profiles and what a run reports *)

(** An event that is neither an inter-profile pause nor an outcome line. *)
Definition silent (ev : event) : Prop :=
  pause_of ev = None /\ outcome_of ev = None.

(** The outcome line of a profile carries the profile's name. *)
Definition names (profile : gmap string pyval) (line : pyval * bool) : Prop :=
  profile !! "name" = Some line.1.

(** A profile the loop of [run] can announce, visit and report: it has a
    url and a name the console can write. *)
Definition reportable (env : Env) (profile : gmap string pyval) : Prop :=
  exists name url,
    profile !! "name" = Some name /\ profile !! "url" = Some url
    /\ console_encodes env (render name) = true.

(** What a call of the workflow returned. *)
Definition verdict (w : result bool * Connector * list event) : bool :=
  match outcome w with
  | Ok connected => connected
  | Raise _ => false
  end.

(** The outcome lines a batch is to print from a given history on: for each
    profile its name with what [connect_with_profile] returns when called
    for it, right after the profile's opening line; the next profile starts
    from the history the pass over this one leaves. *)
Fixpoint expected_outcomes (env : Env) (c : Connector) (tr : trace)
    (profiles : list (gmap string pyval)) : list (pyval * bool) :=
  match profiles with
  | [] => []
  | profile :: rest =>
      match profile !! "name", profile !! "url" with
      | Some name, Some url =>
          (name,
           verdict (connect_with_profile env url profile c
                      (tr ++ [EPrint "\nProcessing profile: {}" [AVal name]])))
          :: expected_outcomes env c
               (tr ++ emitted (process_profile env profile c tr)) rest
      | _, _ => []
      end
  end.

(** A login that lands on a checkpoint page. *)
Definition checkpoint_env : Env :=
  page_env CHECKPOINT [] [] always_shown scripts_run no_textarea unreachable [jane].

(** ** More shapes of text *)

(** What may follow a character of a word in single-spaced text: nothing,
    another character of the word, or one plain space and a further word. *)
Definition word_tail (t : text) : bool :=
  match t with
  | [] => true
  | s :: t' =>
      if isspace s
      then (s =? space)%N && negb (match t' with [] => true | _ => false end)
           && single_spaced t'
      else single_spaced t
  end.

(** ** Requests in a trace *)

Definition post_of (ev : event) : option request :=
  match ev with
  | EPost r => Some r
  | _ => None
  end.

(** The requests posted to the generation service, in order. *)
Definition posts (out : list event) : list request := omap post_of out.

(** A reply of the service that needs no cleaning: 54 plain characters. *)
Definition clean_reply : text :=
  of_string "Hi Jane! Noticed your engineering work, let's connect.".

(** A 200 answer that is a JSON object without a [response] field. *)
Definition replies_nothing : result response :=
  Ok {| status_code := 200;
        resp_json := Ok (JDict {[ "done" := POther (of_string "True") ]});
        resp_text := of_string "{}" |}.

(** ** Reading the login *)

Definition LOGIN_URL : text := of_string "https://www.linkedin.com/login".

(** The address read after the login click shows the landing page. *)
Definition landed_on (u : text) : bool :=
  contains (of_string "feed") u || contains (of_string "mynetwork") u.

(** A native click on an element, as only [login] does on its button. *)
Definition is_login_click (ev : event) : bool :=
  match ev with
  | EClick _ => true
  | _ => false
  end.

(** Typing into a field or clicking it natively, as only [login] does. *)
Definition is_typing (ev : event) : bool :=
  match ev with
  | ESendKeys _ _ => true
  | EClick _ => true
  | _ => false
  end.

(** A login form without a username field. *)
Definition no_form_env : Env :=
  {| chrome_install := fun _ => Ok tt;
     chrome_start := fun _ _ => Ok tt;
     driver_get := fun _ _ => Ok tt;
     driver_current_url := fun _ => Ok LOGIN_URL;
     driver_find_elements := fun _ _ => Ok [];
     driver_execute_script := fun _ _ _ => Ok tt;
     driver_quit := fun _ => Ok tt;
     wait_presence := fun _ _ => Raise TimeoutException;
     wait_presence_all := fun _ _ => Raise TimeoutException;
     wait_clickable := fun _ _ => Raise TimeoutException;
     elem_is_displayed := fun _ _ => Ok true;
     elem_is_enabled := fun _ _ => Ok true;
     elem_text := fun _ _ => Ok [];
     elem_send_keys := fun _ _ _ => Ok tt;
     elem_click := fun _ _ => Ok tt;
     requests_post := fun _ _ => Raise ConnectionError;
     json_load := fun _ _ => Ok [];
     str_lower := ascii_lower;
     console_encodes := utf8_encodes |}.

(** ** Evidence in a trace *)

(** [witnessed good P m]: whenever [m] returns a value that is [good], an
    event in [P] is among those it emitted. *)
Definition witnessed {A} (good : A -> bool) (P : event -> bool) (m : M A) : Prop :=
  forall c tr a,
    outcome (m c tr) = Ok a -> good a = true ->
    existsb P (emitted (m c tr)) = true.

(** The script click on a given button. *)
Definition is_click_on (button : elem) (ev : event) : bool :=
  match ev with
  | EScript script [SElem e] => String.eqb script CLICK_SCRIPT && Nat.eqb e button
  | _ => false
  end.

(** The line that reports a click of [click_button_safely]. *)
Definition is_clicked_line (action_name : string) (ev : event) : bool :=
  match ev with
  | EPrint template [AStr name] =>
      String.eqb template "Successfully clicked {} button"
      && String.eqb name action_name
  | _ => false
  end.

(** The script that writes the note into the textarea. *)
Definition is_note_entry (ev : event) : bool :=
  match ev with
  | EScript script [SElem _; SText _] =>
      String.eqb script "arguments[0].value = arguments[1];"
  | _ => false
  end.

(** The line that reports the send click in [connect_with_profile]. *)
Definition is_sent_line (ev : event) : bool :=
  match ev with
  | EPrint template _ => String.eqb template "Successfully clicked send button"
  | _ => false
  end.

Definition is_true (b : bool) : bool := b.

Definition is_some_true (r : option bool) : bool :=
  match r with
  | Some true => true
  | _ => false
  end.

Definition is_some {R} (r : option R) : bool :=
  match r with
  | Some _ => true
  | None => false
  end.

Definition always {A} (a : A) : bool := true.

(** ** Touching the page *)

(** A visibility check or a script: what every click attempt starts with
    and what writes the note. *)
Definition is_page_action (ev : event) : bool :=
  match ev with
  | EIsDisplayed _ => true
  | EIsEnabled _ => true
  | EScript _ _ => true
  | _ => false
  end.

(** The text filter of the send step on a lowered button text. *)
Definition send_text (t : text) : bool :=
  contains (of_string "send") t || contains (of_string "done") t.

(** The address [connect_with_profile] navigates to for a string address. *)
Definition with_scheme (u : text) : text :=
  if startswith u (of_string "http") then u else of_string "https://" ++ u.

(** Every navigation in a trace goes to the address given, with a scheme. *)
Definition navigates_to (url : pyval) (ev : event) : Prop :=
  match ev with
  | EGet u =>
      match url with
      | PStr a => u = with_scheme a /\ startswith u (of_string "http") = true
      | POther _ => False
      end
  | _ => True
  end.

Definition some_textarea : string -> result elem := fun _ => Ok 9.

(** A page on which every step of the workflow goes through: the buttons
    are labelled "Send a Note", a textarea is there, the service is down. *)
Definition sending_env : Env :=
  page_env FEED [1] (of_string "Send a Note") always_shown scripts_run
    some_textarea unreachable [].


(** A page whose buttons are all labelled "Cancel". *)
Definition cancel_env : Env :=
  page_env FEED [1; 2] (of_string "Cancel") always_shown scripts_run
    some_textarea unreachable [].

(** ** A batch with a profile that has no name *)

Definition error_line (e : exn) : event :=
  EPrint "Error during execution: {}" [AExn e].

(** A profile file that cannot be read, behind a working login. *)
Definition unreadable_env : Env :=
  {| chrome_install := fun _ => Ok tt;
     chrome_start := fun _ _ => Ok tt;
     driver_get := fun _ _ => Ok tt;
     driver_current_url := fun _ => Ok FEED;
     driver_find_elements := fun _ _ => Ok [];
     driver_execute_script := fun _ _ _ => Ok tt;
     driver_quit := fun _ => Ok tt;
     wait_presence := fun _ _ => Ok 0;
     wait_presence_all := fun _ _ => Ok [];
     wait_clickable := fun _ _ => Ok 0;
     elem_is_displayed := fun _ _ => Ok true;
     elem_is_enabled := fun _ _ => Ok true;
     elem_text := fun _ _ => Ok [];
     elem_send_keys := fun _ _ _ => Ok tt;
     elem_click := fun _ _ => Ok tt;
     requests_post := fun _ _ => Raise ConnectionError;
     json_load := fun _ _ => Raise (OtherException "FileNotFoundError");
     str_lower := ascii_lower;
     console_encodes := utf8_encodes |}.

(** * Properties *)

(** ** The sanitizer *)

Section Sanitizer.

Lemma isspace_space : isspace space = true.
Proof. reflexivity. Qed.

Lemma is_bmp_space : is_bmp space = true.
Proof. reflexivity. Qed.

Lemma split_from_words (t cur : text) :
  Forall (fun c => isspace c = false) cur ->
  Forall word (split_from cur t).
Proof.
  revert cur. induction t as [|c t IH]; intros cur Hcur; simpl.
  - destruct cur; constructor; [split; [discriminate | assumption] | constructor].
  - destruct (isspace c) eqn:Hc.
    + destruct cur as [|a cur].
      * apply IH. constructor.
      * constructor; [split; [discriminate | assumption] |].
        apply IH. constructor.
    + apply IH. apply Forall_app. split; [assumption | repeat constructor; assumption].
Qed.

Lemma split_from_Forall (P : codepoint -> Prop) (t cur : text) :
  Forall P cur -> Forall P t -> Forall (Forall P) (split_from cur t).
Proof.
  revert cur. induction t as [|c t IH]; intros cur Hcur Ht; simpl.
  - destruct cur; [constructor | constructor; [assumption | constructor]].
  - inversion Ht as [|? ? Hc Ht']; subst.
    destruct (isspace c).
    + destruct cur as [|a cur].
      * apply IH; [constructor | assumption].
      * constructor; [assumption | apply IH; [constructor | assumption]].
    + apply IH; [| assumption].
      apply Forall_app. split; [assumption | repeat constructor; assumption].
Qed.

Lemma join_Forall (P : codepoint -> Prop) (sep : text) (ws : list text) :
  Forall P sep -> Forall (Forall P) ws -> Forall P (join sep ws).
Proof.
  intros Hsep. induction ws as [|w ws IH]; intros Hws; simpl.
  - constructor.
  - inversion Hws as [|? ? Hw Hws']; subst.
    destruct ws as [|w' ws']; [assumption |].
    apply Forall_app. split; [assumption |].
    apply Forall_app. split; [assumption | apply IH; assumption].
Qed.

Lemma filter_all (f : codepoint -> bool) (t : text) :
  Forall (fun c => f c = true) t -> List.filter f t = t.
Proof.
  induction 1 as [|c t Hc _ IH]; simpl; [reflexivity |].
  rewrite Hc, IH. reflexivity.
Qed.

Lemma re_sub_non_bmp_bmp (t : text) :
  Forall (fun c => is_bmp c = true) (re_sub_non_bmp t).
Proof.
  unfold re_sub_non_bmp. induction t as [|c t IH]; simpl; [constructor |].
  destruct (is_bmp c) eqn:Hc; [constructor; assumption | assumption].
Qed.

(** Scanning over a stretch without whitespace only grows the current word. *)
Lemma split_from_app (w rest cur : text) :
  Forall (fun c => isspace c = false) w ->
  split_from cur (w ++ rest) = split_from (cur ++ w) rest.
Proof.
  intros Hw. revert cur. induction Hw as [|c w Hc _ IH]; intros cur; simpl.
  - rewrite app_nil_r. reflexivity.
  - rewrite Hc, IH, <- app_assoc. reflexivity.
Qed.

Lemma split_from_word (w : text) :
  word w -> split_from [] w = [w].
Proof.
  intros [Hne Hw]. pose proof (split_from_app w [] [] Hw) as H.
  rewrite app_nil_r in H. rewrite H. simpl.
  destruct w; [contradiction | reflexivity].
Qed.

Lemma split_from_join (ws : list text) (cur : text) :
  Forall word ws -> cur <> [] ->
  split_from cur
    (match ws with [] => [] | _ => space :: join [space] ws end) = cur :: ws.
Proof.
  intros Hws. revert cur. induction Hws as [|w ws [Hne Hw] Hws IH]; intros cur Hcur.
  - simpl. destruct cur; [contradiction | reflexivity].
  - cbn [split_from]. rewrite isspace_space.
    destruct cur as [|a cur]; [contradiction |]. f_equal.
    cbn [join]. destruct ws as [|w' ws'].
    + apply split_from_word. split; assumption.
    + cbn [app]. rewrite split_from_app by assumption. simpl app at 1.
      apply (IH w). assumption.
Qed.

Lemma split_join (ws : list text) :
  Forall word ws -> split (join [space] ws) = ws.
Proof.
  intros Hws. destruct Hws as [|w ws [Hne Hw] Hws]; [reflexivity |].
  unfold split. cbn [join]. destruct ws as [|w' ws'].
  - apply split_from_word. split; assumption.
  - cbn [app]. rewrite split_from_app by assumption. simpl app at 1.
    apply (split_from_join (w' :: ws') w); assumption.
Qed.

Lemma single_spaced_word_app (w rest : text) :
  word w ->
  rest = [] \/ (exists t, rest = space :: t /\ t <> [] /\ single_spaced t = true) ->
  single_spaced (w ++ rest) = true.
Proof.
  intros [Hne Hw] Hrest. induction Hw as [|c w Hc Hw IH]; [contradiction |].
  cbn [app single_spaced]. rewrite Hc. cbn [negb andb].
  destruct w as [|c' w'].
  - cbn [app]. destruct Hrest as [-> | (t & -> & Ht & Hs)]; [reflexivity |].
    rewrite isspace_space, N.eqb_refl, Hs.
    destruct t; [contradiction | reflexivity].
  - cbn [app]. inversion Hw as [|? ? Hc' _]; subst. rewrite Hc'.
    apply IH. discriminate.
Qed.

Lemma join_nonempty (ws : list text) :
  Forall word ws -> ws <> [] -> join [space] ws <> [].
Proof.
  intros Hws Hne. destruct Hws as [|w ws [Hw _] _]; [contradiction |].
  cbn [join]. destruct ws; [assumption |].
  destruct w; [contradiction | discriminate].
Qed.

Lemma single_spaced_join (ws : list text) :
  Forall word ws -> single_spaced (join [space] ws) = true.
Proof.
  induction 1 as [|w ws Hw Hws IH]; [reflexivity |].
  cbn [join]. destruct ws as [|w' ws'].
  - rewrite <- (app_nil_r w). apply single_spaced_word_app; [assumption | left; reflexivity].
  - apply single_spaced_word_app; [assumption |]. right.
    exists (join [space] (w' :: ws')). split; [reflexivity |].
    split; [apply join_nonempty; [assumption | discriminate] | assumption].
Qed.

Lemma clean_text_bmp (t : text) :
  Forall (fun c => is_bmp c = true) (clean_text t).
Proof.
  unfold clean_text. apply join_Forall.
  - repeat constructor.
  - apply split_from_Forall; [constructor | apply re_sub_non_bmp_bmp].
Qed.

Lemma split_clean_text (t : text) :
  split (clean_text t) = split (re_sub_non_bmp t).
Proof.
  unfold clean_text. apply split_join. apply split_from_words. constructor.
Qed.

Lemma clean_text_idempotent (t : text) :
  clean_text (clean_text t) = clean_text t.
Proof.
  unfold clean_text at 1. unfold re_sub_non_bmp.
  rewrite filter_all by apply clean_text_bmp.
  rewrite split_clean_text. reflexivity.
Qed.

(** C2, as the code has it: the sanitized text holds no code point outside
    the Basic Multilingual Plane; it is single-spaced (no whitespace at
    either end, every whitespace character a plain space followed by a
    character that is none) and has the words of the input from which the
    non-BMP code points were removed; sanitizing it again changes nothing. *)
Theorem clean_text_sanitizes (t : text) :
  Forall (fun c => is_bmp c = true) (clean_text t)
  /\ single_spaced (clean_text t) = true
  /\ split (clean_text t) = split (re_sub_non_bmp t)
  /\ clean_text (clean_text t) = clean_text t.
Proof.
  split; [apply clean_text_bmp |].
  split; [| split; [apply split_clean_text | apply clean_text_idempotent]].
  unfold clean_text. apply single_spaced_join. apply split_from_words. constructor.
Qed.

(** C2 as stated fails on a leading run of whitespace: the run is removed,
    not replaced by one space. *)
Lemma clean_text_drops_leading_run :
  clean_text (of_string " a") = of_string "a"
  /\ collapse_runs (re_sub_non_bmp (of_string " a")) = of_string " a"
  /\ clean_text (of_string " a") <> collapse_runs (re_sub_non_bmp (of_string " a")).
Proof.
  split; [reflexivity | split; [reflexivity | discriminate]].
Qed.

End Sanitizer.

(** ** Reasoning about computations *)

Section Rules.

Context (P : event -> Prop).

Lemma spec_weaken {A} (Q Q' : result A -> Prop) (m : M A) :
  spec P Q m -> (forall r, Q r -> Q' r) -> spec P Q' m.
Proof.
  intros Hm HQ c tr. destruct (Hm c tr) as (H1 & H2 & H3). auto.
Qed.

Lemma spec_ret {A} (Q : result A -> Prop) (a : A) :
  Q (Ok a) -> spec P Q (ret a).
Proof. intros HQ c tr. cbn. auto. Qed.

Lemma spec_raise {A} (Q : result A -> Prop) (e : exn) :
  Q (Raise e) -> spec P Q (raise e).
Proof. intros HQ c tr. cbn. auto. Qed.

Lemma spec_emit (Q : result unit -> Prop) (ev : event) :
  P ev -> Q (Ok tt) -> spec P Q (emit ev).
Proof. intros HP HQ c tr. cbn. auto. Qed.

Lemma spec_call {A} (Q : result A -> Prop) (ev : event) (answer : trace -> result A) :
  P ev -> (forall tr, Q (answer tr)) -> spec P Q (call ev answer).
Proof. intros HP HQ c tr. cbn. auto. Qed.

Lemma spec_bind {A B} (Q1 : result A -> Prop) (Q : result B -> Prop)
    (m : M A) (f : A -> M B) :
  spec P Q1 m ->
  (forall a, Q1 (Ok a) -> spec P Q (f a)) ->
  (forall e, Q1 (Raise e) -> Q (Raise e)) ->
  spec P Q (bind m f).
Proof.
  intros Hm Hf He c tr. unfold bind, outcome, final, emitted.
  destruct (Hm c tr) as (H1 & H2 & H3). unfold outcome, final, emitted in *.
  destruct (m c tr) as [[r c1] o1]. cbn in *. subst c1.
  destruct r as [a|e].
  - destruct (Hf a H1 c (tr ++ o1)) as (K1 & K2 & K3).
    unfold outcome, final, emitted in *.
    destruct (f a c (tr ++ o1)) as [[r2 c2] o2]. cbn in *.
    split; [assumption | split; [assumption | apply Forall_app; auto]].
  - cbn. auto.
Qed.

Lemma spec_try_except {A} (Q1 Q : result A -> Prop) (m : M A) (h : exn -> M A) :
  spec P Q1 m ->
  (forall a, Q1 (Ok a) -> Q (Ok a)) ->
  (forall e, Q1 (Raise e) -> spec P Q (h e)) ->
  spec P Q (try_except m h).
Proof.
  intros Hm Ha Hh c tr. unfold try_except, outcome, final, emitted.
  destruct (Hm c tr) as (H1 & H2 & H3). unfold outcome, final, emitted in *.
  destruct (m c tr) as [[r c1] o1]. cbn in *. subst c1.
  destruct r as [a|e].
  - cbn. auto.
  - destruct (Hh e H1 c (tr ++ o1)) as (K1 & K2 & K3).
    unfold outcome, final, emitted in *.
    destruct (h e c (tr ++ o1)) as [[r2 c2] o2]. cbn in *.
    split; [assumption | split; [assumption | apply Forall_app; auto]].
Qed.

Lemma spec_get_self (Q : result Connector -> Prop) :
  (forall c, Q (Ok c)) -> spec P Q get_self.
Proof. intros HQ c tr. cbn. auto. Qed.

Lemma spec_via_driver {A} (Q : result A -> Prop) (m : M A) :
  spec P Q m -> Q (Raise AttributeError) -> spec P Q (via_driver m).
Proof.
  intros Hm HQ. unfold via_driver.
  apply spec_bind with (Q1 := returns).
  - apply spec_get_self. intros; exact I.
  - intros c _. destruct (driver c); [assumption | apply spec_raise; assumption].
  - intros e [].
Qed.

End Rules.

Lemma spec_for_each {A R} (P : event -> Prop) (Qb Q : result (option R) -> Prop)
    (xs : list A) (body : A -> M (option R)) :
  (forall x, In x xs -> spec P Qb (body x)) ->
  Q (Ok None) ->
  (forall v, Qb (Ok (Some v)) -> Q (Ok (Some v))) ->
  (forall e, Qb (Raise e) -> Q (Raise e)) ->
  spec P Q (for_each xs body).
Proof.
  intros Hb Hnone Hsome Hraise. induction xs as [|x xs IH]; cbn [for_each].
  - apply spec_ret. assumption.
  - apply spec_bind with (Q1 := Qb).
    + apply Hb. left. reflexivity.
    + intros [v|] Hv.
      * apply spec_ret. apply Hsome. assumption.
      * apply IH. intros y Hy. apply Hb. right. assumption.
    + assumption.
Qed.

Ltac head_of t :=
  lazymatch t with
  | ?f _ => head_of f
  | _ => t
  end.

(** One syntax-directed step on a goal [spec P any m] or [spec P returns m]. *)
Ltac spec_step :=
  lazymatch goal with
  | |- spec _ _ (ret _) => apply spec_ret; exact I
  | |- spec _ any (raise _) => apply spec_raise; exact I
  | |- spec _ _ (emit _) => apply spec_emit; [ | exact I]
  | |- spec _ _ (print _ _ _) =>
      unfold print; cbn [printable forallb arg_printable andb]
  | |- spec _ any (call _ _) => apply spec_call; [ | intros; exact I]
  | |- spec _ _ get_self => apply spec_get_self; intros; exact I
  | |- spec _ any (via_driver _) => apply spec_via_driver; [ | exact I]
  | |- spec _ any (bind _ _) =>
      apply spec_bind with (Q1 := any); [ | intros ? _ | intros; exact I]
  | |- spec _ returns (bind _ _) =>
      apply spec_bind with (Q1 := returns); [ | intros ? _ | intros ? []]
  | |- spec _ _ (try_except _ _) =>
      apply spec_try_except with (Q1 := any); [ | intros; exact I | intros ? _]
  | |- spec _ any (for_each _ _) =>
      apply spec_for_each with (Qb := any);
      [intros ? _ | exact I | intros; exact I | intros; exact I]
  | |- spec _ returns (for_each _ _) =>
      apply spec_for_each with (Qb := returns);
      [intros ? _ | exact I | intros; exact I | intros ? []]
  | |- spec _ _ (if ?b then _ else _) => destruct b
  | |- spec _ _ (match ?x with _ => _ end) => destruct x
  | |- spec _ _ ?m => let h := head_of m in progress unfold h
  end.

Ltac spec_auto := repeat spec_step.


(** ** The note generator *)

Section Generator.

Variable env : Env.

Lemma firstn_note_limit (t : text) : length (firstn note_limit t) <= note_limit.
Proof. apply firstn_le_length. Qed.

Lemma fallback_within_limit : length FALLBACK_NOTE <= note_limit.
Proof. vm_compute. lia. Qed.

Lemma note_attempt_within_limit (profile : gmap string pyval) :
  spec (fun _ => True) within_limit (note_attempt env profile).
Proof.
  unfold note_attempt.
  apply spec_bind with (Q1 := any); [spec_auto; exact I | intros name _ | intros; exact I].
  apply spec_bind with (Q1 := any); [spec_auto; exact I | intros position _ | intros; exact I].
  apply spec_bind with (Q1 := any); [spec_auto; exact I | intros response _ | intros; exact I].
  destruct (status_code response =? 200)%N.
  - apply spec_bind with (Q1 := any); [spec_auto; exact I | intros body _ | intros; exact I].
    apply spec_bind with (Q1 := any); [spec_auto; exact I | intros field _ | intros; exact I].
    apply spec_bind with (Q1 := any); [spec_auto; exact I | intros note _ | intros; exact I].
    apply spec_bind with (Q1 := any); [spec_auto; exact I | intros _ _ | intros; exact I].
    apply spec_ret. apply firstn_note_limit.
  - apply spec_bind with (Q1 := any); [spec_auto; exact I | intros _ _ | intros; exact I].
    apply spec_ret. apply fallback_within_limit.
Qed.

(** The generator never raises, and what it returns fits the limit. *)
Lemma generate_connection_note_bounded (profile : gmap string pyval) c tr :
  exists note,
    outcome (generate_connection_note env profile c tr) = Ok note
    /\ length note <= note_limit.
Proof.
  assert (H : spec (fun _ => True)
                (fun r : result text =>
                   match r with Ok n => length n <= note_limit | Raise _ => False end)
                (generate_connection_note env profile)).
  { unfold generate_connection_note.
    apply spec_try_except with (Q1 := within_limit).
    - apply note_attempt_within_limit.
    - intros a Ha. exact Ha.
    - intros e _.
      apply spec_bind with (Q1 := returns); [spec_auto; exact I | intros _ _ | intros ? []].
      apply spec_ret. apply fallback_within_limit. }
  destruct (H c tr) as (HQ & _ & _). cbv beta in HQ.
  destruct (outcome (generate_connection_note env profile c tr)) as [note|e];
    [exists note; auto | contradiction].
Qed.

(** The successful path, event by event. *)
Lemma generate_connection_note_success (profile : gmap string pyval) c tr
    name position resp d r :
  profile !! "name" = Some name ->
  profile !! "current_position" = Some position ->
  requests_post env tr (note_request name position) = Ok resp ->
  status_code resp = 200%N ->
  resp_json resp = Ok (JDict d) ->
  d !! "response" = Some (PStr r) ->
  generate_connection_note env profile c tr =
    (Ok (firstn note_limit (clean_text (strip r))), c,
     EPost (note_request name position)
     :: (if note_limit <? length (clean_text (strip r))
         then [EPrint LENGTH_WARNING [ANat (length (clean_text (strip r)))]]
         else [])).
Proof.
  intros Hn Hp Hpost Hs Hj Hd.
  unfold generate_connection_note, try_except, note_attempt, bind, getitem.
  rewrite Hn, Hp. cbn [ret]. rewrite !app_nil_r.
  unfold post, call. rewrite Hpost, Hs. cbn [N.eqb Pos.eqb].
  unfold response_json. rewrite Hj. cbn [ret json_get]. rewrite Hd.
  cbn [val_strip ret].
  destruct (note_limit <? length (clean_text (strip r))); reflexivity.
Qed.

(** C3, as the code has it: whatever the service answers, the generator
    returns a note of at most 200 characters; on a 200 answer whose
    [response] field is a string, the note is the first 200 characters of
    the sanitized response, and the length warning is printed exactly when
    the sanitized response is longer than 200 characters. *)
Theorem generate_note_truncated (profile : gmap string pyval) c tr :
  (exists note,
     outcome (generate_connection_note env profile c tr) = Ok note
     /\ length note <= 200)
  /\ (forall name position resp d r,
        profile !! "name" = Some name ->
        profile !! "current_position" = Some position ->
        requests_post env tr (note_request name position) = Ok resp ->
        status_code resp = 200%N ->
        resp_json resp = Ok (JDict d) ->
        d !! "response" = Some (PStr r) ->
        outcome (generate_connection_note env profile c tr)
          = Ok (firstn 200 (clean_text (strip r)))
        /\ warned (emitted (generate_connection_note env profile c tr))
          = (200 <? length (clean_text (strip r)))).
Proof.
  split; [apply generate_connection_note_bounded |].
  intros name position resp d r Hn Hp Hpost Hs Hj Hd.
  rewrite (generate_connection_note_success profile c tr name position resp d r)
    by assumption.
  split; [reflexivity |].
  unfold emitted, warned. cbn [snd existsb is_length_warning].
  destruct (note_limit <? length (clean_text (strip r))) eqn:E;
    fold note_limit; rewrite E; reflexivity.
Qed.

(** C4: when the service cannot be reached, answers with a status other
    than 200, or anything raises inside the guarded block, the generator
    returns the fixed fallback note; it returns, it does not raise. *)
Theorem generate_note_fallback (profile : gmap string pyval) c tr :
  (forall name position,
     profile !! "name" = Some name ->
     profile !! "current_position" = Some position ->
     match requests_post env tr (note_request name position) with
     | Ok resp => status_code resp <> 200%N
     | Raise _ => True
     end)
  \/ (exists e, outcome (note_attempt env profile c tr) = Raise e) ->
  outcome (generate_connection_note env profile c tr) = Ok FALLBACK_NOTE.
Proof.
  intros [Hpost | [e He]].
  - unfold generate_connection_note, try_except, note_attempt, bind, getitem.
    destruct (profile !! "name") as [name|]; [| reflexivity].
    destruct (profile !! "current_position") as [position|]; [| reflexivity].
    specialize (Hpost name position eq_refl eq_refl).
    cbn [ret]. rewrite !app_nil_r. unfold post, call.
    destruct (requests_post env tr (note_request name position)) as [resp|e];
      [| reflexivity].
    apply N.eqb_neq in Hpost. rewrite Hpost.
    unfold print. destruct (printable env _); reflexivity.
  - unfold generate_connection_note, try_except.
    unfold outcome in He.
    destruct (note_attempt env profile c tr) as [[r c1] o1].
    cbn in He. subst r. reflexivity.
Qed.

(** C9: a profile without [name] or without [current_position] gets the
    fallback note whatever the service would answer: the lookup raises
    [KeyError] inside the guarded block, the only event is the error line
    and no request is posted. *)
Theorem generate_note_missing_key (profile : gmap string pyval) c tr :
  profile !! "name" = None \/ profile !! "current_position" = None ->
  exists key,
    (key = "name" \/ key = "current_position")
    /\ profile !! key = None
    /\ generate_connection_note env profile c tr =
         (Ok FALLBACK_NOTE, c,
          [EPrint "Error generating connection note: {}" [AExn (KeyError key)]]).
Proof.
  intros H.
  unfold generate_connection_note, try_except, note_attempt, bind, getitem.
  destruct (profile !! "name") as [name|] eqn:Hn.
  - destruct H as [H | H]; [discriminate |].
    exists "current_position". rewrite H.
    split; [right; reflexivity | split; reflexivity].
  - exists "name". split; [left; reflexivity | split; [assumption | reflexivity]].
Qed.

End Generator.

(** C3 as stated fails on a 250-character answer of spaces: it is within the
    Basic Multilingual Plane, the sanitized text is empty, the note is
    empty and no length warning is printed. *)
Lemma generate_note_blank_response_unwarned :
  length blank_reply = 250
  /\ forallb is_bmp blank_reply = true
  /\ outcome (generate_connection_note (plain_env (replies blank_reply) [])
                jane started []) = Ok []
  /\ warned (emitted (generate_connection_note (plain_env (replies blank_reply) [])
                        jane started [])) = false.
Proof. repeat split; vm_compute; reflexivity. Qed.

Lemma generate_note_truncated_witness :
  outcome (generate_connection_note (plain_env (replies long_reply) [])
             jane started []) = Ok (repeat 97%N 200)
  /\ warned (emitted (generate_connection_note (plain_env (replies long_reply) [])
                        jane started [])) = true.
Proof.
  destruct (generate_note_truncated (plain_env (replies long_reply) [])
              jane started []) as [_ H].
  exact (H (PStr (of_string "Jane Doe")) (PStr (of_string "Engineer"))
           {| status_code := 200;
              resp_json := Ok (JDict {[ "response" := PStr long_reply ]});
              resp_text := long_reply |}
           {[ "response" := PStr long_reply ]} long_reply
           eq_refl eq_refl eq_refl eq_refl eq_refl eq_refl).
Defined.

Lemma generate_note_fallback_witness :
  outcome (generate_connection_note (plain_env unreachable []) jane started [])
  = Ok FALLBACK_NOTE.
Proof.
  apply generate_note_fallback. left. intros name position _ _.
  vm_compute. exact I.
Defined.

Lemma generate_note_missing_key_witness :
  exists key,
    (key = "name" \/ key = "current_position")
    /\ nameless !! key = None
    /\ generate_connection_note (plain_env (replies long_reply) []) nameless started [] =
         (Ok FALLBACK_NOTE, started,
          [EPrint "Error generating connection note: {}" [AExn (KeyError key)]]).
Proof.
  apply generate_note_missing_key. left. vm_compute. reflexivity.
Defined.

(** ** The standalone client *)

Section Client.

Variable env : Env.

(** The client in closed form: the text is read off the service's answer to
    the one request made; when the announcement cannot be printed no
    request is made and the text is empty. *)
Lemma generate_text_answer (prompt model : text) c tr :
  outcome (LlamaClient.generate_text env prompt model c tr) =
  Ok (if console_encodes env model
      then text_of_answer
             (requests_post env (tr ++ [EPrint LlamaClient.SENDING [AText model]])
                (LlamaClient.text_request prompt model))
      else []).
Proof.
  unfold LlamaClient.generate_text, try_except, bind, print, printable, post,
    call, outcome.
  cbn [forallb arg_printable andb]. rewrite andb_true_r.
  destruct (console_encodes env model); [| reflexivity].
  unfold emit. cbn [fst snd].
  destruct (requests_post env _ _) as [resp|e]; cbn [text_of_answer].
  - destruct (status_code resp =? 200)%N.
    + unfold response_json, json_get, val_strip.
      destruct (resp_json resp) as [[d|]|e]; cbn [ret raise fst snd].
      * destruct (d !! "response") as [[r|o]|]; cbn [ret raise fst snd];
          reflexivity.
      * reflexivity.
      * destruct e; reflexivity.
    + destruct (console_encodes env (resp_text resp) && true); reflexivity.
  - destruct e; reflexivity.
Qed.

(** C10: [generate_text] always returns; it returns the empty string when
    the request raises (a failed connection or anything else), when the
    status is not 200, and when reading the answer raises; on a 200 answer
    holding a JSON object it returns the [response] field stripped, and the
    empty string when the field is absent. The request is made once the
    announcement has been printed; when the console cannot print the model
    the call returns the empty string as well. *)
Theorem generate_text_outcomes (prompt model : text) c tr :
  let answer :=
    requests_post env (tr ++ [EPrint LlamaClient.SENDING [AText model]])
      (LlamaClient.text_request prompt model) in
  let result := outcome (LlamaClient.generate_text env prompt model c tr) in
  (exists t, result = Ok t)
  /\ (forall e, answer = Raise e -> result = Ok [])
  /\ (forall resp, answer = Ok resp -> status_code resp <> 200%N -> result = Ok [])
  /\ (forall resp e, answer = Ok resp -> status_code resp = 200%N ->
        resp_json resp = Raise e -> result = Ok [])
  /\ (forall resp d r, console_encodes env model = true ->
        answer = Ok resp -> status_code resp = 200%N ->
        resp_json resp = Ok (JDict d) -> d !! "response" = Some (PStr r) ->
        result = Ok (strip r))
  /\ (forall resp d, answer = Ok resp -> status_code resp = 200%N ->
        resp_json resp = Ok (JDict d) -> d !! "response" = None ->
        result = Ok [])
  /\ (console_encodes env model = false -> result = Ok []).
Proof.
  intros answer result. subst result. rewrite generate_text_answer.
  fold answer. clearbody answer.
  destruct (console_encodes env model) eqn:Hmodel.
  - split; [eexists; reflexivity |].
    split; [intros e ->; reflexivity |].
    split.
    { intros resp -> Hs. apply N.eqb_neq in Hs. cbn [text_of_answer].
      rewrite Hs. reflexivity. }
    split.
    { intros resp e -> Hs Hj. cbn [text_of_answer]. rewrite Hs, Hj. reflexivity. }
    split.
    { intros resp d r _ -> Hs Hj Hd. cbn [text_of_answer]. rewrite Hs, Hj, Hd.
      reflexivity. }
    split; [| intros H; discriminate H].
    intros resp d -> Hs Hj Hd. cbn [text_of_answer]. rewrite Hs, Hj, Hd.
    reflexivity.
  - split; [eexists; reflexivity |].
    repeat split; try reflexivity.
    intros resp d r H. discriminate H.
Qed.

End Client.

Lemma generate_text_outcomes_witness :
  outcome (LlamaClient.generate_text (plain_env (replies (of_string "  Hello there. ")) [])
             (of_string "Say hello") (of_string "llama2") fresh [])
  = Ok (of_string "Hello there.").
Proof.
  destruct (generate_text_outcomes
              (plain_env (replies (of_string "  Hello there. ")) [])
              (of_string "Say hello") (of_string "llama2") fresh [])
    as (_ & _ & _ & _ & H & _).
  exact (H {| status_code := 200;
              resp_json := Ok (JDict {[ "response" := PStr (of_string "  Hello there. ") ]});
              resp_text := of_string "  Hello there. " |}
           {[ "response" := PStr (of_string "  Hello there. ") ]}
           (of_string "  Hello there. ")
           eq_refl eq_refl eq_refl eq_refl eq_refl).
Defined.

(** ** Events of composed computations *)

Lemma count_app (f : event -> bool) (a b : list event) :
  count f (a ++ b) = count f a + count f b.
Proof. unfold count. rewrite List.filter_app, length_app. reflexivity. Qed.

Lemma emitted_bind {A B} (m : M A) (k : A -> M B) c tr :
  emitted (bind m k c tr) =
  emitted (m c tr) ++
  match outcome (m c tr) with
  | Ok a => emitted (k a (final (m c tr)) (tr ++ emitted (m c tr)))
  | Raise _ => []
  end.
Proof.
  unfold bind, emitted, outcome, final.
  destruct (m c tr) as [[[a|e] c1] o1]; cbn [fst snd].
  - destruct (k a c1 (tr ++ o1)) as [[r c2] o2]. reflexivity.
  - rewrite app_nil_r. reflexivity.
Qed.

(** A loop emits no more of a kind of event than its passes together. *)
Lemma for_each_count {A R} (f : event -> bool) (bound : A -> nat)
    (body : A -> M (option R)) (xs : list A) :
  (forall x c tr, count f (emitted (body x c tr)) <= bound x) ->
  forall c tr,
    count f (emitted (for_each xs body c tr)) <= list_sum (map bound xs).
Proof.
  intros Hb. induction xs as [|x xs IH]; intros c tr;
    cbn [for_each map list_sum fold_right].
  - cbn. lia.
  - rewrite emitted_bind, count_app.
    specialize (Hb x c tr).
    destruct (outcome (body x c tr)) as [[v|]|e].
    + cbn. lia.
    + specialize (IH (final (body x c tr)) (tr ++ emitted (body x c tr))).
      cbv beta iota. unfold list_sum in IH. lia.
    + cbn. lia.
Qed.

(** ** The click helper *)

Section Click.

Variable env : Env.

(** Case analysis on what the environment answers to one attempt. *)
Ltac answer_cases :=
  repeat (cbn -[Nat.ltb max_attempts];
          match goal with
          | |- context [elem_is_displayed env ?t ?b] =>
              destruct (elem_is_displayed env t b) as [[|]|?]
          | |- context [elem_is_enabled env ?t ?b] =>
              destruct (elem_is_enabled env t b) as [[|]|?]
          | |- context [driver_execute_script env ?t ?s ?a] =>
              destruct (driver_execute_script env t s a) as [?|?]
          | |- context [driver ?c] => destruct (driver c)
          | |- context [?a <? ?b] => destruct (a <? b)
          end).

Lemma click_attempt_counts (button : elem) (action_name : string) (attempt : nat) c tr :
  count is_check (emitted (click_attempt env button action_name attempt c tr)) = 1
  /\ count is_backoff (emitted (click_attempt env button action_name attempt c tr))
     <= (if attempt <? max_attempts - 1 then 1 else 0).
Proof.
  unfold click_attempt, try_except, bind, is_displayed, is_enabled,
    execute_script, via_driver, get_self, call, print, sleep, emit, ret, raise,
    emitted.
  answer_cases; split; cbn; lia.
Qed.

Lemma click_button_safely_returns (button : elem) (action_name : string) :
  spec (fun _ => True) returns (click_button_safely env button action_name).
Proof. spec_auto; exact I. Qed.

Lemma click_button_safely_counts (button : elem) (action_name : string) c tr :
  count is_check (emitted (click_button_safely env button action_name c tr)) <= 3
  /\ count is_backoff (emitted (click_button_safely env button action_name c tr)) <= 2.
Proof.
  unfold click_button_safely. rewrite emitted_bind.
  assert (Htail : forall (c' : Connector) (tr' : trace),
             match outcome (for_each (seq 0 max_attempts)
                              (click_attempt env button action_name) c tr) with
             | Ok a => emitted (match a with Some b => ret b | None => ret false end c' tr')
             | Raise _ => []
             end = []).
  { intros c' tr'. destruct (outcome _) as [[b|]|e]; reflexivity. }
  rewrite Htail, app_nil_r. split.
  - apply (for_each_count is_check (fun _ => 1)).
    intros k c' tr'. rewrite (proj1 (click_attempt_counts button action_name k c' tr')).
    constructor.
  - apply (for_each_count is_backoff (fun k => if k <? max_attempts - 1 then 1 else 0)).
    intros k c' tr'. apply click_attempt_counts.
Qed.

(** A button that is never displayed: three checks, nothing else. *)
Lemma click_button_safely_hidden (button : elem) (action_name : string) c tr :
  (forall tr', elem_is_displayed env tr' button = Ok false) ->
  click_button_safely env button action_name c tr =
    (Ok false, c, [EIsDisplayed button; EIsDisplayed button; EIsDisplayed button]).
Proof.
  intros H.
  unfold click_button_safely, click_attempt, try_except, bind, is_displayed, call.
  cbn [seq max_attempts for_each]. unfold bind.
  repeat (rewrite H; cbn [ret app]).
  reflexivity.
Qed.

(** A button that is displayed but never enabled. *)
Lemma click_button_safely_disabled (button : elem) (action_name : string) c tr :
  (forall tr', elem_is_displayed env tr' button = Ok true) ->
  (forall tr', elem_is_enabled env tr' button = Ok false) ->
  click_button_safely env button action_name c tr =
    (Ok false, c,
     [EIsDisplayed button; EIsEnabled button;
      EIsDisplayed button; EIsEnabled button;
      EIsDisplayed button; EIsEnabled button]).
Proof.
  intros Hd He.
  unfold click_button_safely, click_attempt, try_except, bind, is_displayed,
    is_enabled, call.
  cbn [seq max_attempts for_each]. unfold bind.
  repeat (first [rewrite Hd | rewrite He]; cbn [ret app]).
  reflexivity.
Qed.

(** A usable button whose script click raises every time: three attempts,
    a backoff after the first and after the second, none after the third. *)
Lemma click_button_safely_exhausted (button : elem) (action_name : string)
    (e : exn) c tr :
  driver c = true ->
  (forall tr', elem_is_displayed env tr' button = Ok true) ->
  (forall tr', elem_is_enabled env tr' button = Ok true) ->
  (forall tr', driver_execute_script env tr' SCROLL_SCRIPT [SElem button] = Ok tt) ->
  (forall tr', driver_execute_script env tr' CLICK_SCRIPT [SElem button] = Raise e) ->
  click_button_safely env button action_name c tr =
    (Ok false, c,
     failed_click button action_name e 0 ++ [ESleep (Seconds 2)]
     ++ failed_click button action_name e 1 ++ [ESleep (Seconds 2)]
     ++ failed_click button action_name e 2).
Proof.
  intros Hdrv Hd He Hscroll Hclick.
  unfold click_button_safely, click_attempt, try_except, bind, is_displayed,
    is_enabled, execute_script, via_driver, get_self, call, print, printable,
    sleep.
  cbn [seq max_attempts for_each forallb arg_printable andb]. unfold bind, emit.
  repeat (first [rewrite Hd | rewrite He | rewrite Hscroll | rewrite Hclick
                | rewrite Hdrv];
          cbn [ret app Nat.ltb Nat.leb Nat.sub max_attempts]).
  reflexivity.
Qed.

(** C6, as the code has it: the helper always returns; it makes at most
    three attempts, each with one visibility check, and at most two backoff
    sleeps. A button that is not displayed, or displayed but not enabled, is
    checked again in each of the three attempts, without click and without
    backoff, and the helper returns false. A usable button whose click
    raises in every attempt is tried three times, with a backoff of two
    seconds after the first and after the second attempt, and the helper
    returns false. *)
Theorem click_button_safely_attempts (button : elem) (action_name : string) c tr :
  (exists b, outcome (click_button_safely env button action_name c tr) = Ok b)
  /\ count is_check (emitted (click_button_safely env button action_name c tr)) <= 3
  /\ count is_backoff (emitted (click_button_safely env button action_name c tr)) <= 2
  /\ ((forall tr', elem_is_displayed env tr' button = Ok false) ->
      click_button_safely env button action_name c tr =
        (Ok false, c,
         [EIsDisplayed button; EIsDisplayed button; EIsDisplayed button]))
  /\ ((forall tr', elem_is_displayed env tr' button = Ok true) ->
      (forall tr', elem_is_enabled env tr' button = Ok false) ->
      click_button_safely env button action_name c tr =
        (Ok false, c,
         [EIsDisplayed button; EIsEnabled button;
          EIsDisplayed button; EIsEnabled button;
          EIsDisplayed button; EIsEnabled button]))
  /\ (forall e,
        driver c = true ->
        (forall tr', elem_is_displayed env tr' button = Ok true) ->
        (forall tr', elem_is_enabled env tr' button = Ok true) ->
        (forall tr', driver_execute_script env tr' SCROLL_SCRIPT [SElem button] = Ok tt) ->
        (forall tr', driver_execute_script env tr' CLICK_SCRIPT [SElem button] = Raise e) ->
        click_button_safely env button action_name c tr =
          (Ok false, c,
           failed_click button action_name e 0 ++ [ESleep (Seconds 2)]
           ++ failed_click button action_name e 1 ++ [ESleep (Seconds 2)]
           ++ failed_click button action_name e 2)).
Proof.
  split.
  { destruct (click_button_safely_returns button action_name c tr) as (H & _ & _).
    destruct (outcome _) as [b|e]; [exists b; reflexivity | contradiction]. }
  split; [apply click_button_safely_counts |].
  split; [apply click_button_safely_counts |].
  split; [apply click_button_safely_hidden |].
  split; [apply click_button_safely_disabled |].
  intros e. apply click_button_safely_exhausted.
Qed.

End Click.

(** C6 as stated fails on a button that is hidden when the helper is called
    and displayed a moment later: the helper does not fail at once, it
    checks again, clicks and returns true. *)
Lemma click_button_safely_rechecks :
  elem_is_displayed late_env [] 7 = Ok false
  /\ click_button_safely late_env 7 "Connect" started [] =
       (Ok true, started,
        [EIsDisplayed 7;
         EIsDisplayed 7; EIsEnabled 7;
         EScript SCROLL_SCRIPT [SElem 7]; ESleep (Seconds 1);
         EScript CLICK_SCRIPT [SElem 7];
         EPrint "Successfully clicked {} button" [AStr "Connect"]]).
Proof. split; reflexivity. Qed.

Lemma click_button_safely_attempts_witness :
  click_button_safely hidden_env 7 "Connect" started [] =
    (Ok false, started, [EIsDisplayed 7; EIsDisplayed 7; EIsDisplayed 7])
  /\ count is_backoff
       (emitted (click_button_safely intercepting_env 7 "Connect" started [])) = 2.
Proof.
  split.
  - destruct (click_button_safely_attempts hidden_env 7 "Connect" started [])
      as (_ & _ & _ & H & _).
    apply H. intros tr'. reflexivity.
  - destruct (click_button_safely_attempts intercepting_env 7 "Connect" started [])
      as (_ & _ & _ & _ & _ & H).
    rewrite (H (OtherException "ElementClickInterceptedException") eq_refl
               (fun _ => eq_refl) (fun _ => eq_refl) (fun _ => eq_refl)
               (fun _ => eq_refl)).
    reflexivity.
Defined.

(** ** The workflow for one profile *)

Section Workflow.

Variable env : Env.

Ltac step_any :=
  apply spec_bind with (Q1 := any);
  [spec_auto; try reflexivity | intros ? _ | intros; exact I].

Ltac step_returns :=
  apply spec_bind with (Q1 := returns);
  [spec_auto; try reflexivity | intros ? _ | intros ? []].

Lemma connect_with_profile_returns (url : pyval) (profile : gmap string pyval) :
  spec (fun _ => True) returns (connect_with_profile env url profile).
Proof. spec_auto; exact I. Qed.

Section NoTextarea.

Hypothesis no_textarea_matches :
  forall tr selector,
    In selector possible_textareas ->
    exists e, wait_presence env tr (ByCss selector) = Raise e.

Lemma fill_textarea_absent (note : text) :
  spec not_send (fun r => r = Ok false) (fill_textarea env note).
Proof.
  unfold fill_textarea.
  apply spec_bind with (Q1 := fun r => r = Ok None).
  - apply spec_for_each with (Qb := fun r => r = Ok None); [| reflexivity | auto | auto].
    intros selector Hin.
    apply spec_try_except with (Q1 := raises).
    + apply spec_bind with (Q1 := raises).
      * unfold until_presence. apply spec_via_driver; [| exact I].
        apply spec_call; [reflexivity |].
        intros tr. destruct (no_textarea_matches tr selector Hin) as [e ->].
        exact I.
      * intros a [].
      * intros e _. exact I.
    + intros a [].
    + intros e _. step_returns. apply spec_ret. reflexivity.
  - intros r [= ->]. apply spec_ret. reflexivity.
  - intros e He. discriminate He.
Qed.

Lemma note_dialog_continues (profile : gmap string pyval) :
  spec not_send continues (note_dialog env profile).
Proof.
  unfold note_dialog.
  step_any. step_any. step_any.
  destruct (negb _).
  { step_any. apply spec_ret. exact I. }
  step_any. step_any. step_any. step_any.
  apply spec_bind with (Q1 := fun r => r = Ok false);
    [apply fill_textarea_absent | | intros; exact I].
  intros found [= ->]. cbn [negb].
  step_any. apply spec_ret. exact I.
Qed.

Lemma try_connect_button_continues (profile : gmap string pyval) (button : elem) :
  spec not_send (fun r => r = Ok None) (try_connect_button env profile button).
Proof.
  unfold try_connect_button.
  apply spec_try_except with (Q1 := fun r => r = Ok None).
  - step_returns.
    destruct (negb _); [apply spec_ret; reflexivity |].
    step_returns.
    apply spec_try_except with (Q1 := continues).
    + apply note_dialog_continues.
    + intros [b|] H; [contradiction | reflexivity].
    + intros e _.
      destruct e; (step_returns; apply spec_ret; reflexivity).
  - auto.
  - intros e He. discriminate He.
Qed.

Lemma connect_with_profile_abandons (url : pyval) (profile : gmap string pyval) :
  spec not_send (fun r => r = Ok false) (connect_with_profile env url profile).
Proof.
  unfold connect_with_profile.
  apply spec_try_except with (Q1 := fun r => r = Ok false \/ raises r).
  - apply spec_bind with (Q1 := any);
      [spec_auto; try reflexivity | intros u _ | intros; right; exact I].
    apply spec_bind with (Q1 := any);
      [spec_auto; try reflexivity | intros _ _ | intros; right; exact I].
    apply spec_bind with (Q1 := any);
      [spec_auto; try reflexivity | intros _ _ | intros; right; exact I].
    apply spec_bind with (Q1 := any);
      [spec_auto; try reflexivity | intros _ _ | intros; right; exact I].
    apply spec_bind with (Q1 := any);
      [spec_auto; try reflexivity | intros _ _ | intros; right; exact I].
    apply spec_bind with (Q1 := any);
      [spec_auto; try reflexivity | intros buttons _ | intros; right; exact I].
    apply spec_bind with (Q1 := fun r => r = Ok None).
    + destruct buttons as [|b bs]; [apply spec_ret; reflexivity |].
      step_returns.
      apply spec_for_each with (Qb := fun r => r = Ok None);
        [| reflexivity | auto | auto].
      intros button _. apply try_connect_button_continues.
    + intros r [= ->]. step_returns. apply spec_ret. left. reflexivity.
    + intros e He. discriminate He.
  - intros a [H | []]. exact H.
  - intros e _. step_returns. apply spec_ret. reflexivity.
Qed.

End NoTextarea.

(** C8: [connect_with_profile] never raises; and when no selector of the
    textarea list matches an element, it returns false and the send step is
    never begun: the attempt to send is not announced and no send button is
    searched for. *)
Theorem connect_without_textarea (url : pyval) (profile : gmap string pyval) c tr :
  (exists b, outcome (connect_with_profile env url profile c tr) = Ok b)
  /\ ((forall tr' selector,
         In selector possible_textareas ->
         exists e, wait_presence env tr' (ByCss selector) = Raise e) ->
      outcome (connect_with_profile env url profile c tr) = Ok false
      /\ Forall (fun ev => is_send_step ev = false)
           (emitted (connect_with_profile env url profile c tr))).
Proof.
  split.
  - destruct (connect_with_profile_returns url profile c tr) as (H & _ & _).
    destruct (outcome _) as [b|e]; [exists b; reflexivity | contradiction].
  - intros H.
    destruct (connect_with_profile_abandons H url profile c tr) as (H1 & _ & H2).
    split; assumption.
Qed.

End Workflow.

(** A page with a connect button and an "Add a Note" button that both click,
    a service that is down, and no textarea. *)
Lemma connect_without_textarea_witness :
  outcome (connect_with_profile dialog_env (PStr (of_string "linkedin.com/in/janedoe"))
             jane started []) = Ok false
  /\ Forall (fun ev => is_send_step ev = false)
       (emitted (connect_with_profile dialog_env
                   (PStr (of_string "linkedin.com/in/janedoe")) jane started [])).
Proof.
  destruct (connect_without_textarea dialog_env
              (PStr (of_string "linkedin.com/in/janedoe")) jane started [])
    as [_ H].
  apply H. intros tr' selector _. exists TimeoutException. reflexivity.
Defined.

(** ** The batch run *)

Section Run.

Variable env : Env.

(** [setup_driver], answer by answer. *)
Lemma setup_driver_steps c tr :
  setup_driver env c tr =
  match chrome_install env tr with
  | Raise e => (Raise e, c, [EInstall])
  | Ok _ =>
      match chrome_start env (tr ++ [EInstall]) (chrome_options c) with
      | Raise e => (Raise e, c, [EInstall; EChrome (chrome_options c)])
      | Ok _ =>
          (driver_execute_script env
             (tr ++ [EInstall; EChrome (chrome_options c)]) MASK_SCRIPT [],
           with_driver c,
           [EInstall; EChrome (chrome_options c); EScript MASK_SCRIPT []])
      end
  end.
Proof.
  unfold setup_driver, bind, get_self, call, assign_driver, execute_script,
    via_driver, bind, get_self, call.
  rewrite !app_nil_r.
  destruct (chrome_install env tr) as [[]|e]; [| reflexivity].
  destruct (chrome_start env (tr ++ [EInstall]) (chrome_options c)) as [[]|e];
    [| reflexivity].
  cbn [with_driver driver app]. rewrite <- app_assoc. reflexivity.
Qed.

Lemma setup_driver_emitted (P : event -> Prop) c tr :
  P EInstall -> (forall o, P (EChrome o)) -> (forall s a, P (EScript s a)) ->
  Forall P (emitted (setup_driver env c tr)).
Proof.
  intros H1 H2 H3. rewrite setup_driver_steps.
  destruct (chrome_install env tr); [| repeat constructor; auto].
  destruct (chrome_start env _ _); repeat constructor; auto.
Qed.

Lemma setup_driver_started c tr c1 o1 :
  setup_driver env c tr = (Ok tt, c1, o1) -> driver c1 = true.
Proof.
  rewrite setup_driver_steps.
  destruct (chrome_install env tr); [| discriminate].
  destruct (chrome_start env _ _); [| discriminate].
  intros [= _ <- _]. reflexivity.
Qed.

Lemma login_returns : spec (fun _ => True) returns (login env).
Proof. spec_auto; exact I. Qed.

Lemma login_idle : spec idle returns (login env).
Proof. spec_auto; repeat split. Qed.

(** The loop body of [run] never leaves the function by itself. *)
Lemma process_profile_continues (profile : gmap string pyval) :
  spec (fun ev => is_quit ev = false) continues (process_profile env profile).
Proof.
  unfold process_profile.
  apply spec_bind with (Q1 := any);
    [spec_auto; reflexivity | intros name _ | intros; exact I].
  apply spec_bind with (Q1 := any);
    [spec_auto; reflexivity | intros _ _ | intros; exact I].
  apply spec_bind with (Q1 := any);
    [spec_auto; reflexivity | intros url _ | intros; exact I].
  apply spec_bind with (Q1 := any);
    [spec_auto; reflexivity | intros connected _ | intros; exact I].
  apply spec_bind with (Q1 := any);
    [spec_auto; reflexivity | intros _ _ | intros; exact I].
  cbv zeta.
  apply spec_bind with (Q1 := any);
    [spec_auto; reflexivity | intros _ _ | intros; exact I].
  apply spec_bind with (Q1 := any);
    [spec_auto; reflexivity | intros _ _ | intros; exact I].
  apply spec_ret. exact I.
Qed.

(** What follows the setup: [self] is untouched, the browser is not quit,
    and the value, if any, is [None]. *)
Lemma session_none (file : string) :
  spec (fun ev => is_quit ev = false)
    (fun r => r = Ok PyNone \/ raises r) (session env file).
Proof.
  unfold session.
  apply spec_bind with (Q1 := any);
    [spec_auto; reflexivity | intros logged_in _ | intros; right; exact I].
  destruct (negb logged_in).
  { apply spec_bind with (Q1 := any);
      [spec_auto; reflexivity | intros _ _ | intros; right; exact I].
    apply spec_ret. left. reflexivity. }
  apply spec_bind with (Q1 := any);
    [spec_auto; reflexivity | intros profiles _ | intros; right; exact I].
  apply spec_bind with (Q1 := continues).
  - apply spec_for_each with (Qb := continues); [| exact I | auto | auto].
    intros profile _. apply process_profile_continues.
  - intros [v|] H; [contradiction |]. apply spec_ret. left. reflexivity.
  - intros e _. right. exact I.
Qed.

(** The [finally] block on a connector that holds a driver. *)
Lemma teardown_started c tr :
  driver c = true ->
  exists r closing,
    teardown env c tr = (r, c, EQuit :: closing)
    /\ ((r = Ok tt /\ closing = [EPrint "Browser closed." []])
        \/ (raises r /\ closing = [])).
Proof.
  intros Hdrv.
  unfold teardown, quit, via_driver, bind, get_self, call, print, emit.
  cbn [app]. rewrite Hdrv. cbn [app]. rewrite Hdrv.
  destruct (driver_quit env _) as [[]|e].
  - eexists _, _. split; [reflexivity | left; split; reflexivity].
  - eexists _, _. split; [reflexivity | right; split; [exact I | reflexivity]].
Qed.

Lemma run_login_failed_steps (file : string) c tr c1 o1 c2 o2 :
  setup_driver env c tr = (Ok tt, c1, o1) ->
  login env c1 (tr ++ o1) = (Ok false, c2, o2) ->
  exists r closing,
    run env file c tr =
      (r, c2,
       o1 ++ o2 ++ [EPrint "Login failed. Exiting..." []; EQuit] ++ closing)
    /\ ((r = Ok PyNone /\ closing = [EPrint "Browser closed." []])
        \/ (raises r /\ closing = [])).
Proof.
  intros Hsetup Hlogin.
  pose proof (setup_driver_started c tr c1 o1 Hsetup) as Hdrv.
  destruct (login_returns c1 (tr ++ o1)) as (_ & Hfin & _).
  rewrite Hlogin in Hfin. cbn in Hfin. subst c2.
  unfold run, try_finally, try_except.
  unfold bind at 1. rewrite Hsetup.
  unfold session. unfold bind at 1. rewrite Hlogin.
  cbn [negb]. unfold bind at 1. unfold print, printable. cbn [forallb].
  unfold emit, ret. cbn [app].
  destruct (teardown_started c1
              (tr ++ o1 ++ o2 ++ [EPrint "Login failed. Exiting..." []]) Hdrv)
    as (r & closing & Ht & Hr).
  rewrite Ht.
  destruct Hr as [[-> ->] | [Hr ->]].
  - exists (Ok PyNone), [EPrint "Browser closed." []].
    split; [| left; split; reflexivity].
    rewrite <- !app_assoc. reflexivity.
  - destruct r as [[]|e]; [contradiction |].
    exists (Raise e), [].
    split; [| right; split; [exact I | reflexivity]].
    rewrite <- !app_assoc. reflexivity.
Qed.

(** A failed login leaves every profile untouched. *)
Lemma run_login_failed (file : string) c tr c1 o1 c2 o2 :
  setup_driver env c tr = (Ok tt, c1, o1) ->
  login env c1 (tr ++ o1) = (Ok false, c2, o2) ->
  exists r closing,
    run env file c tr =
      (r, c2,
       o1 ++ o2 ++ [EPrint "Login failed. Exiting..." []; EQuit] ++ closing)
    /\ ((r = Ok PyNone /\ closing = [EPrint "Browser closed." []])
        \/ (raises r /\ closing = []))
    /\ Forall idle (emitted (run env file c tr)).
Proof.
  intros Hsetup Hlogin.
  destruct (run_login_failed_steps file c tr c1 o1 c2 o2 Hsetup Hlogin)
    as (r & closing & Hrun & Hr).
  exists r, closing. split; [exact Hrun | split; [exact Hr |]].
  assert (Ho1 : Forall idle o1).
  { change o1 with (emitted (Ok tt, c1, o1)). rewrite <- Hsetup.
    apply setup_driver_emitted; repeat split. }
  destruct (login_idle c1 (tr ++ o1)) as (_ & _ & Ho2).
  rewrite Hlogin in Ho2. cbn in Ho2.
  rewrite Hrun. unfold emitted. cbn [snd].
  apply Forall_app; split; [assumption |].
  apply Forall_app; split; [assumption |].
  destruct Hr as [[_ ->] | [_ ->]]; repeat constructor.
Qed.

(** The guarded part of [run] once the browser has started: it ends with
    [None], [self] holds the driver, and the browser has not been quit. *)
Lemma run_body_started (file : string) c tr :
  chrome_install env tr = Ok tt ->
  chrome_start env (tr ++ [EInstall]) (chrome_options c) = Ok tt ->
  exists o1,
    try_except (setup_driver env ;;; session env file)
      (fun e => print env "Error during execution: {}" [AExn e] ;;; ret PyNone) c tr
    = (Ok PyNone, with_driver c, o1)
    /\ Forall (fun ev => is_quit ev = false) o1.
Proof.
  intros Hinst Hstart.
  unfold try_except. unfold bind at 1.
  rewrite setup_driver_steps, Hinst, Hstart.
  set (o0 := [EInstall; EChrome (chrome_options c); EScript MASK_SCRIPT []]).
  assert (H0 : Forall (fun ev => is_quit ev = false) o0)
    by (repeat constructor).
  destruct (driver_execute_script env _ MASK_SCRIPT []) as [[]|e].
  - destruct (session_none file (with_driver c) (tr ++ o0)) as (HQ & Hfin & Hout).
    unfold outcome, final, emitted in *.
    destruct (session env file (with_driver c) (tr ++ o0)) as [[r c1] o1].
    cbn [fst snd] in *. subst c1.
    destruct r as [v|e].
    + destruct HQ as [[= ->] | []].
      eexists. split; [reflexivity | apply Forall_app; auto].
    + unfold bind, print, printable. cbn [forallb arg_printable andb].
      unfold emit, ret. cbn [app].
      eexists. split; [reflexivity |].
      apply Forall_app. split; [apply Forall_app; auto |].
      repeat constructor.
  - unfold bind, print, printable. cbn [forallb arg_printable andb].
      unfold emit, ret. cbn [app].
    eexists. split; [reflexivity |].
    apply Forall_app. split; [assumption | repeat constructor].
Qed.

(** Every run in which the browser started quits it, once, at the end. *)
Lemma run_quits (file : string) c tr :
  chrome_install env tr = Ok tt ->
  chrome_start env (tr ++ [EInstall]) (chrome_options c) = Ok tt ->
  exists before closing,
    emitted (run env file c tr) = before ++ EQuit :: closing
    /\ Forall (fun ev => is_quit ev = false) before
    /\ (closing = [] \/ closing = [EPrint "Browser closed." []]).
Proof.
  intros Hinst Hstart.
  destruct (run_body_started file c tr Hinst Hstart) as (o1 & Hbody & Ho1).
  unfold run, try_finally. rewrite Hbody.
  destruct (teardown_started (with_driver c) (tr ++ o1) eq_refl)
    as (r & closing & Ht & Hr).
  rewrite Ht. exists o1, closing.
  split; [destruct r; reflexivity |].
  split; [assumption |].
  destruct Hr as [[_ ->] | [_ ->]]; [right | left]; reflexivity.
Qed.

(** A run in which the browser could not be started has no driver to quit. *)
Lemma run_without_browser (file : string) c tr :
  driver c = false ->
  raises (chrome_install env tr)
  \/ raises (chrome_start env (tr ++ [EInstall]) (chrome_options c)) ->
  outcome (run env file c tr) = Ok PyNone
  /\ driver (final (run env file c tr)) = false
  /\ Forall (fun ev => is_quit ev = false) (emitted (run env file c tr)).
Proof.
  intros Hdrv H.
  assert (Hrun : exists out,
             run env file c tr = (Ok PyNone, c, out)
             /\ Forall (fun ev => is_quit ev = false) out).
  { unfold run, try_finally, try_except. unfold bind at 1.
    rewrite setup_driver_steps.
    unfold teardown, bind, get_self, print, printable.
    cbn [forallb arg_printable andb]. unfold emit, ret.
    destruct (chrome_install env tr) as [[]|e].
    - destruct H as [[] | H].
      destruct (chrome_start env _ _) as [[]|e]; [contradiction |].
      cbn [app]. rewrite Hdrv. cbn [app].
      eexists. split; [reflexivity | repeat constructor].
    - cbn [app]. rewrite Hdrv. cbn [app].
      eexists. split; [reflexivity | repeat constructor]. }
  destruct Hrun as (out & -> & Hout).
  split; [reflexivity | split; assumption].
Qed.

(** C7: when the login fails after a successful setup, the run does nothing
    but announce the failure and quit the browser: the events of setup and
    login are followed by the failure line, the quit and, if the quit went
    through, the closing line; no profile is started, [connect_with_profile]
    is not entered and no outcome line is printed. And on every path through [run] on which the browser has been
    started, it is quit exactly once, as the last action but for the closing
    line; when the browser could not be started there is no driver and
    nothing is quit. *)
Theorem run_tears_down (file : string) c tr :
  (forall c1 o1 c2 o2,
     setup_driver env c tr = (Ok tt, c1, o1) ->
     login env c1 (tr ++ o1) = (Ok false, c2, o2) ->
     exists r closing,
       run env file c tr =
         (r, c2,
          o1 ++ o2 ++ [EPrint "Login failed. Exiting..." []; EQuit] ++ closing)
       /\ ((r = Ok PyNone /\ closing = [EPrint "Browser closed." []])
           \/ (raises r /\ closing = []))
       /\ Forall idle (emitted (run env file c tr)))
  /\ (chrome_install env tr = Ok tt ->
      chrome_start env (tr ++ [EInstall]) (chrome_options c) = Ok tt ->
      exists before closing,
        emitted (run env file c tr) = before ++ EQuit :: closing
        /\ Forall (fun ev => is_quit ev = false) before
        /\ (closing = [] \/ closing = [EPrint "Browser closed." []]))
  /\ (driver c = false ->
      raises (chrome_install env tr)
      \/ raises (chrome_start env (tr ++ [EInstall]) (chrome_options c)) ->
      outcome (run env file c tr) = Ok PyNone
      /\ driver (final (run env file c tr)) = false
      /\ Forall (fun ev => is_quit ev = false) (emitted (run env file c tr))).
Proof.
  split; [intros c1 o1 c2 o2; apply run_login_failed |].
  split; [apply run_quits | apply run_without_browser].
Qed.

End Run.

(** ** What a run pauses for and reports *)

Section Report.

Variable env : Env.

Lemma omap_silent {B} (f : event -> option B) (l : list event) :
  Forall (fun ev => f ev = None) l -> omap f l = [].
Proof.
  induction 1 as [|ev l Hev _ IH]; [reflexivity |].
  cbn. rewrite Hev. exact IH.
Qed.

Lemma silent_pauses (l : list event) : Forall silent l -> pauses l = [].
Proof.
  intros H. apply omap_silent. eapply Forall_impl; [exact H |].
  intros ev [H1 _]. exact H1.
Qed.

Lemma silent_outcomes (l : list event) : Forall silent l -> reported_outcomes l = [].
Proof.
  intros H. apply omap_silent. eapply Forall_impl; [exact H |].
  intros ev [_ H2]. exact H2.
Qed.

Lemma connect_with_profile_silent (url : pyval) (profile : gmap string pyval) :
  spec silent returns (connect_with_profile env url profile).
Proof. spec_auto; split; reflexivity. Qed.

Lemma login_silent : spec silent returns (login env).
Proof. spec_auto; split; reflexivity. Qed.

(** A line whose only argument is a text the console can write is printed. *)
Lemma print_name (template : string) (name : pyval) :
  console_encodes env (render name) = true ->
  print env template [AVal name] = emit (EPrint template [AVal name]).
Proof.
  intros H. unfold print, printable. cbn [forallb arg_printable].
  rewrite H. reflexivity.
Qed.

(** One pass of the loop on a profile that can be reported: the opening
    line, the workflow, one outcome line with the workflow's verdict, one
    pause. *)
Lemma process_profile_steps (profile : gmap string pyval) (name url : pyval) c tr :
  profile !! "name" = Some name ->
  profile !! "url" = Some url ->
  console_encodes env (render name) = true ->
  exists connected oc,
    connect_with_profile env url profile c
      (tr ++ [EPrint "\nProcessing profile: {}" [AVal name]])
    = (Ok connected, c, oc)
    /\ Forall silent oc
    /\ process_profile env profile c tr =
       (Ok None, c,
        EPrint "\nProcessing profile: {}" [AVal name] :: oc
        ++ [EPrint (if connected : bool then "Successfully processed {}"
                    else "Failed to process {}") [AVal name];
            EPrint "Waiting {:.0f} seconds before next profile..." [ADelay pause];
            ESleep pause]).
Proof.
  intros Hn Hu Hp.
  destruct (connect_with_profile_silent url profile c
              (tr ++ [EPrint "\nProcessing profile: {}" [AVal name]]))
    as (HQ & Hfin & Hout).
  unfold outcome, final, emitted in *.
  destruct (connect_with_profile env url profile c _) as [[r c1] oc] eqn:Hc.
  cbn [fst snd] in *. subst c1.
  destruct r as [connected|e]; [| contradiction].
  exists connected, oc. split; [reflexivity | split; [assumption |]].
  unfold process_profile, getitem. rewrite Hn, Hu.
  unfold bind at 1. cbn [ret]. rewrite app_nil_r.
  unfold bind at 1. rewrite (print_name _ name Hp). unfold emit at 1.
  unfold bind at 1. cbn [ret]. rewrite app_nil_r.
  unfold bind at 1. rewrite Hc.
  unfold bind at 1.
  assert (Hline :
            (if connected
             then name0 <- ret name ;; print env "Successfully processed {}" [AVal name0]
             else name0 <- ret name ;; print env "Failed to process {}" [AVal name0])
            = emit (EPrint (if connected then "Successfully processed {}"
                            else "Failed to process {}") [AVal name])).
  { destruct connected; unfold bind at 1; cbn [ret];
      rewrite (print_name _ name Hp); unfold emit; cbn [app]; reflexivity. }
  rewrite Hline.
  unfold bind, print, printable. cbn [forallb arg_printable andb].
  unfold emit, ret. cbn [app]. rewrite <- ?app_assoc. reflexivity.
Qed.


Lemma process_profile_nameless (profile : gmap string pyval) c tr :
  profile !! "name" = None ->
  process_profile env profile c tr = (Raise (KeyError "name"), c, []).
Proof.
  intros H. unfold process_profile, bind, getitem. rewrite H. reflexivity.
Qed.

Lemma pauses_app (a b : list event) : pauses (a ++ b) = pauses a ++ pauses b.
Proof. apply omap_app. Qed.

Lemma reported_outcomes_app (a b : list event) :
  reported_outcomes (a ++ b) = reported_outcomes a ++ reported_outcomes b.
Proof. apply omap_app. Qed.

(** The loop over profiles that can be reported runs to its end: one pause
    and one outcome line for each profile, in order, each line with the
    verdict of the profile's workflow. *)
Lemma profiles_loop (profiles : list (gmap string pyval)) :
  Forall (reportable env) profiles ->
  forall c tr,
  exists out,
    for_each profiles (process_profile env) c tr = (Ok None, c, out)
    /\ pauses out = repeat (20, 40) (length profiles)
    /\ Forall2 names profiles (reported_outcomes out)
    /\ reported_outcomes out = expected_outcomes env c tr profiles.
Proof.
  induction 1 as [|profile profiles (name & url & Hn & Hu & Hp) _ IH]; intros c tr.
  - exists []. repeat split. constructor.
  - destruct (process_profile_steps profile name url c tr Hn Hu Hp)
      as (connected & oc & Hc & Hoc & Hstep).
    cbn [for_each expected_outcomes]. unfold bind at 1.
    rewrite Hn, Hu, Hc, Hstep. unfold verdict, outcome, emitted. cbn [fst snd].
    match goal with
    | |- context [for_each profiles _ c ?h] =>
        destruct (IH c h) as (out & Hloop & Hpause & Hr & He)
    end.
    rewrite Hloop. eexists. split; [reflexivity |].
    change (?x :: ?l ++ ?t) with ([x] ++ l ++ t).
    rewrite !pauses_app, !reported_outcomes_app.
    rewrite (silent_pauses oc Hoc), (silent_outcomes oc Hoc), Hpause.
    split; [reflexivity |].
    split.
    + destruct connected; (constructor; [exact Hn | exact Hr]).
    + destruct connected; cbn; rewrite He; reflexivity.
Qed.

Lemma for_each_app {A R} (body : A -> M (option R)) (xs ys : list A) :
  forall c tr c' out,
    for_each xs body c tr = (Ok None, c', out) ->
    for_each (xs ++ ys) body c tr =
      match for_each ys body c' (tr ++ out) with
      | (r, c'', o') => (r, c'', out ++ o')
      end.
Proof.
  induction xs as [|x xs IH]; intros c tr c' out H.
  - cbn in H. injection H as <- <-. cbn [app]. rewrite app_nil_r.
    destruct (for_each ys body c tr) as [[r c''] o']. reflexivity.
  - cbn [app for_each] in *. unfold bind in *.
    destruct (body x c tr) as [[[[v|]|e] c1] o1].
    + cbn in H. discriminate H.
    + destruct (for_each xs body c1 (tr ++ o1)) as [[r c2] o2] eqn:Hxs.
      injection H as -> -> <-.
      rewrite (IH c1 (tr ++ o1) c' o2 Hxs), <- app_assoc.
      destruct (for_each ys body c' (tr ++ o1 ++ o2)) as [[r c''] o'].
      rewrite <- app_assoc. reflexivity.
    + discriminate H.
Qed.

(** A run that gets past setup and login and reads profiles that can all be
    reported. *)
Lemma run_processes (file : string) c tr c1 o1 c2 o2
    (profiles : list (gmap string pyval)) :
  setup_driver env c tr = (Ok tt, c1, o1) ->
  login env c1 (tr ++ o1) = (Ok true, c2, o2) ->
  json_load env (tr ++ o1 ++ o2) file = Ok profiles ->
  Forall (reportable env) profiles ->
  pauses (emitted (run env file c tr)) = repeat (20, 40) (length profiles)
  /\ Forall2 names profiles (reported_outcomes (emitted (run env file c tr)))
  /\ reported_outcomes (emitted (run env file c tr))
     = expected_outcomes env c2 (tr ++ o1 ++ o2 ++ [EOpen file]) profiles.
Proof.
  intros Hsetup Hlogin Hload Hwf.
  pose proof (setup_driver_started env c tr c1 o1 Hsetup) as Hdrv.
  assert (Ho1 : Forall silent o1).
  { change o1 with (emitted (Ok tt, c1, o1)). rewrite <- Hsetup.
    apply setup_driver_emitted; repeat split. }
  destruct (login_silent c1 (tr ++ o1)) as (_ & Hfin & Ho2).
  rewrite Hlogin in Hfin, Ho2. cbn in Hfin, Ho2. subst c2.
  assert (Hrun : exists out closing,
             emitted (run env file c tr)
             = o1 ++ o2 ++ [EOpen file] ++ out ++ closing
             /\ pauses out = repeat (20, 40) (length profiles)
             /\ Forall2 names profiles (reported_outcomes out)
             /\ reported_outcomes out
                = expected_outcomes env c1 (tr ++ o1 ++ o2 ++ [EOpen file]) profiles
             /\ Forall silent closing).
  { unfold run, try_finally, try_except. unfold bind at 1. rewrite Hsetup.
    unfold session. unfold bind at 1. rewrite Hlogin. cbn [negb].
    unfold bind at 1. unfold load_profiles, call.
    rewrite <- app_assoc, Hload.
    unfold bind at 1.
    match goal with
    | |- context [for_each profiles _ c1 ?h] =>
        destruct (profiles_loop profiles Hwf c1 h) as (out & -> & Hp & Hr & He)
    end.
    cbn [ret app].
    match goal with
    | |- context [teardown env c1 ?h] =>
        destruct (teardown_started env c1 h Hdrv) as (r & closing & -> & Hc)
    end.
    exists out, (EQuit :: closing).
    split; [| split; [exact Hp | split; [exact Hr | split]]].
    - unfold emitted. destruct r; cbn [snd]; rewrite <- ?app_assoc;
        cbn [app]; rewrite ?app_nil_r; reflexivity.
    - rewrite He, <- ?app_assoc. reflexivity.
    - destruct Hc as [[_ ->] | [_ ->]]; repeat constructor. }
  destruct Hrun as (out & closing & -> & Hp & Hr & He & Hclosing).
  rewrite !pauses_app, !reported_outcomes_app.
  rewrite (silent_pauses o1 Ho1), (silent_pauses o2 Ho2),
    (silent_pauses closing Hclosing), (silent_outcomes o1 Ho1),
    (silent_outcomes o2 Ho2), (silent_outcomes closing Hclosing), Hp.
  cbn [app pauses reported_outcomes omap list_omap pause_of outcome_of].
  rewrite !app_nil_r. split; [reflexivity | split; [exact Hr | exact He]].
Qed.

(** A run whose loop meets, after profiles that can be reported, a profile
    at which the loop body raises before its first event: the profiles
    before it are processed, the exception is printed, the browser is quit,
    and the profiles after it are never touched. *)
Lemma run_stops_at (file : string) c tr c1 o1 c2 o2
    (good rest : list (gmap string pyval)) (bad : gmap string pyval) (e : exn) :
  setup_driver env c tr = (Ok tt, c1, o1) ->
  login env c1 (tr ++ o1) = (Ok true, c2, o2) ->
  json_load env (tr ++ o1 ++ o2) file = Ok (good ++ bad :: rest) ->
  Forall (reportable env) good ->
  (forall c' tr', process_profile env bad c' tr' = (Raise e, c', [])) ->
  exists out closing,
    emitted (run env file c tr) =
      o1 ++ o2 ++ [EOpen file] ++ out ++ [error_line e; EQuit] ++ closing
    /\ pauses out = repeat (20, 40) (length good)
    /\ Forall2 names good (reported_outcomes out)
    /\ reported_outcomes out
       = expected_outcomes env c2 (tr ++ o1 ++ o2 ++ [EOpen file]) good
    /\ (closing = [] \/ closing = [EPrint "Browser closed." []]).
Proof.
  intros Hsetup Hlogin Hload Hwf Hbad.
  pose proof (setup_driver_started env c tr c1 o1 Hsetup) as Hdrv.
  destruct (login_returns env c1 (tr ++ o1)) as (_ & Hfin & _).
  rewrite Hlogin in Hfin. cbn in Hfin. subst c2.
  unfold run, try_finally, try_except. unfold bind at 1. rewrite Hsetup.
  unfold session. unfold bind at 1. rewrite Hlogin. cbn [negb].
  unfold bind at 1. unfold load_profiles, call.
  rewrite <- app_assoc, Hload.
  unfold bind at 1.
  match goal with
  | |- context [for_each _ _ c1 ?h] =>
      destruct (profiles_loop good Hwf c1 h) as (out & Hloop & Hp & Hr & He);
      rewrite (for_each_app (process_profile env) good (bad :: rest) c1 h c1 out Hloop)
  end.
  cbn [for_each]. unfold bind at 1. rewrite Hbad.
  unfold bind, print, printable. cbn [forallb arg_printable andb].
  unfold emit, ret. cbn [app].
  match goal with
  | |- context [teardown env c1 ?h] =>
      destruct (teardown_started env c1 h Hdrv) as (r & closing & -> & Hc)
  end.
  exists out, closing.
  split; [| split; [exact Hp | split; [exact Hr | split]]].
  - unfold emitted, error_line. destruct r; cbn [snd];
      rewrite <- ?app_assoc; cbn [app]; rewrite ?app_nil_r;
      rewrite <- ?app_assoc; reflexivity.
  - rewrite He, <- ?app_assoc. reflexivity.
  - destruct Hc as [[_ ->] | [_ ->]]; [right | left]; reflexivity.
Qed.



(** The pauses of a run over profiles that can be reported: one for every
    profile, the last one included, each drawn from 20 to 40 seconds. *)
Lemma run_pauses (file : string) c tr c1 o1 c2 o2
    (profiles : list (gmap string pyval)) :
  setup_driver env c tr = (Ok tt, c1, o1) ->
  login env c1 (tr ++ o1) = (Ok true, c2, o2) ->
  json_load env (tr ++ o1 ++ o2) file = Ok profiles ->
  Forall (reportable env) profiles ->
  pauses (emitted (run env file c tr)) = repeat (20, 40) (length profiles).
Proof.
  intros Hs Hl Hj Hwf.
  apply (run_processes file c tr c1 o1 c2 o2 profiles Hs Hl Hj Hwf).
Qed.

End Report.

(** C1 on a file with one profile, behind a working login: the run sleeps
    for a random pause after the only, and so the final, profile. *)
Theorem run_single_profile_pauses :
  pauses (emitted (run (plain_env unreachable [jane]) "profile_data.json" fresh []))
  = [(20, 40)].
Proof. vm_compute. reflexivity. Qed.



Lemma run_tears_down_witness :
  exists r closing,
    run checkpoint_env "profile_data.json" fresh [] =
      (r, with_driver fresh,
       emitted (setup_driver checkpoint_env fresh [])
       ++ emitted (login checkpoint_env (with_driver fresh)
                     (emitted (setup_driver checkpoint_env fresh [])))
       ++ [EPrint "Login failed. Exiting..." []; EQuit] ++ closing)
    /\ ((r = Ok PyNone /\ closing = [EPrint "Browser closed." []])
        \/ (raises r /\ closing = []))
    /\ Forall idle (emitted (run checkpoint_env "profile_data.json" fresh [])).
Proof.
  destruct (run_tears_down checkpoint_env "profile_data.json" fresh [])
    as [H _].
  apply (H (with_driver fresh) (emitted (setup_driver checkpoint_env fresh []))
           (with_driver fresh)
           (emitted (login checkpoint_env (with_driver fresh)
                       (emitted (setup_driver checkpoint_env fresh []))))).
  - vm_compute. reflexivity.
  - vm_compute. reflexivity.
Defined.

(** * Further properties of the code *)

(** ** The sanitizer and [strip] *)

Section SanitizerMore.

Lemma single_spaced_cons (c : codepoint) (t : text) :
  single_spaced (c :: t) = negb (isspace c) && word_tail t.
Proof.
  destruct t as [|s t']; [reflexivity |].
  cbn [single_spaced word_tail]. destruct (isspace s); reflexivity.
Qed.

Lemma split_from_nonempty (t cur : text) : cur <> [] -> split_from cur t <> [].
Proof.
  revert cur. induction t as [|c t IH]; intros cur Hcur; cbn [split_from].
  - destruct cur; [contradiction | discriminate].
  - destruct (isspace c).
    + destruct cur; [contradiction | discriminate].
    + apply IH. destruct cur; discriminate.
Qed.

(** Splitting single-spaced text and joining the words again gives it back. *)
Lemma join_split_from (t cur : text) :
  (match cur with [] => single_spaced t | _ => word_tail t end) = true ->
  join [space] (split_from cur t) = cur ++ t.
Proof.
  revert cur. induction t as [|s t IH]; intros cur H.
  - destruct cur; [reflexivity |]. cbn. rewrite app_nil_r. reflexivity.
  - cbn [split_from]. destruct cur as [|a cur].
    + rewrite single_spaced_cons in H. apply andb_true_iff in H as [Hs Ht].
      apply negb_true_iff in Hs. rewrite Hs. cbn [app].
      rewrite (IH [s]); [reflexivity | exact Ht].
    + cbn [word_tail] in H. destruct (isspace s) eqn:Hs.
      * apply andb_true_iff in H as [H Ht]. apply andb_true_iff in H as [Heq Hne].
        apply N.eqb_eq in Heq. subst s.
        specialize (IH [] Ht). cbn [app] in IH.
        destruct (split_from [] t) as [|w ws] eqn:Hsplit.
        { cbn in IH. subst t. discriminate Hne. }
        cbn [join]. cbn [join] in IH. rewrite IH. reflexivity.
      * rewrite single_spaced_cons, Hs in H. cbn [negb andb] in H.
        rewrite (IH ((a :: cur) ++ [s])).
        -- rewrite <- app_assoc. reflexivity.
        -- cbn [app]. exact H.
Qed.

Lemma clean_text_fixed (t : text) :
  Forall (fun c => is_bmp c = true) t -> single_spaced t = true ->
  clean_text t = t.
Proof.
  intros Hbmp Hs. unfold clean_text, re_sub_non_bmp.
  rewrite filter_all by exact Hbmp.
  apply (join_split_from t []). exact Hs.
Qed.

(** The texts the sanitizer leaves unchanged are exactly the single-spaced
    texts within the Basic Multilingual Plane. *)
Theorem clean_text_fixed_points (t : text) :
  clean_text t = t <->
  Forall (fun c => is_bmp c = true) t /\ single_spaced t = true.
Proof.
  split.
  - intros H. rewrite <- H. split; [apply clean_text_bmp |].
    unfold clean_text. apply single_spaced_join. apply split_from_words. constructor.
  - intros [Hbmp Hs]. apply clean_text_fixed; assumption.
Qed.

Lemma join_split_from_length (t cur : text) :
  length (join [space] (split_from cur t)) <= length cur + length t.
Proof.
  revert cur. induction t as [|c t IH]; intros cur; cbn [split_from].
  - destruct cur; cbn; lia.
  - destruct (isspace c).
    + destruct cur as [|a cur].
      * specialize (IH []). cbn in *. lia.
      * specialize (IH []). cbn [join].
        destruct (split_from [] t); cbn [length] in *;
          rewrite ?length_app; cbn [length] in *; lia.
    + specialize (IH (cur ++ [c])). rewrite length_app in IH. cbn in *. lia.
Qed.

Lemma filter_length_le (f : codepoint -> bool) (t : text) :
  length (List.filter f t) <= length t.
Proof.
  induction t as [|c t IH]; [constructor |].
  cbn. destruct (f c); cbn; lia.
Qed.

(** Sanitizing never makes a text longer. *)
Theorem clean_text_length (t : text) : length (clean_text t) <= length t.
Proof.
  unfold clean_text, re_sub_non_bmp, split.
  pose proof (join_split_from_length (List.filter is_bmp t) []) as H.
  pose proof (filter_length_le is_bmp t). cbn in H. lia.
Qed.

Lemma split_from_empty (t : text) :
  split_from [] t = [] <-> Forall (fun c => isspace c = true) t.
Proof.
  induction t as [|c t IH]; cbn [split_from].
  - split; [constructor | reflexivity].
  - destruct (isspace c) eqn:Hc.
    + rewrite IH. split; [intros H; constructor; assumption |].
      intros H. inversion H; assumption.
    + split.
      * intros H. exfalso. exact (split_from_nonempty t [c] ltac:(discriminate) H).
      * intros H. inversion H as [|? ? Hc' _]. congruence.
Qed.

(** The sanitized text is empty exactly when the input has nothing but
    whitespace and code points outside the Basic Multilingual Plane. *)
Theorem clean_text_empty (t : text) :
  clean_text t = [] <->
  Forall (fun c => is_bmp c = true -> isspace c = true) t.
Proof.
  unfold clean_text, re_sub_non_bmp, split.
  assert (Hf : Forall (fun c => isspace c = true) (List.filter is_bmp t) <->
               Forall (fun c => is_bmp c = true -> isspace c = true) t).
  { induction t as [|c t IH]; cbn [List.filter].
    - split; constructor.
    - destruct (is_bmp c) eqn:Hc.
      + split; intros H; inversion H as [|? ? H1 H2]; subst.
        * constructor; [intros _; exact H1 | apply IH; exact H2].
        * constructor; [apply H1; exact Hc | apply IH; exact H2].
      + split; intros H.
        * constructor; [intros Hb; congruence | apply IH; exact H].
        * inversion H; subst. apply IH. assumption. }
  assert (Hw : Forall word (split_from [] (List.filter is_bmp t)))
    by (apply split_from_words; constructor).
  rewrite <- Hf, <- split_from_empty.
  split.
  - intros H. destruct (split_from [] (List.filter is_bmp t)) as [|w ws] eqn:E;
      [reflexivity |].
    exfalso. exact (join_nonempty (w :: ws) Hw ltac:(discriminate) H).
  - intros ->. reflexivity.
Qed.

Lemma isspace_bmp (c : codepoint) : isspace c = true -> is_bmp c = true.
Proof.
  unfold isspace, is_bmp. intros H. apply N.leb_le.
  repeat (apply orb_true_iff in H as [H | H]);
    try (apply andb_true_iff in H as [H1 H2]; apply N.leb_le in H1, H2; lia);
    try (apply N.eqb_eq in H; lia).
Qed.

Lemma split_from_snoc_space (t cur : text) (c : codepoint) :
  isspace c = true -> split_from cur (t ++ [c]) = split_from cur t.
Proof.
  intros Hc. revert cur. induction t as [|a t IH]; intros cur; cbn [app split_from].
  - rewrite Hc. destruct cur; reflexivity.
  - destruct (isspace a); [destruct cur; rewrite IH; reflexivity | apply IH].
Qed.

Lemma split_filter_lstrip (t : text) :
  split (List.filter is_bmp (lstrip t)) = split (List.filter is_bmp t).
Proof.
  induction t as [|c t IH]; [reflexivity |].
  cbn [lstrip]. destruct (isspace c) eqn:Hc; [| reflexivity].
  cbn [List.filter]. rewrite (isspace_bmp c Hc).
  unfold split in *. cbn [split_from]. rewrite Hc. exact IH.
Qed.

Lemma split_filter_rev_lstrip (t : text) :
  split (List.filter is_bmp (rev (lstrip t))) = split (List.filter is_bmp (rev t)).
Proof.
  induction t as [|c t IH]; [reflexivity |].
  cbn [lstrip]. destruct (isspace c) eqn:Hc; [| reflexivity].
  cbn [rev]. rewrite List.filter_app. cbn [List.filter].
  rewrite (isspace_bmp c Hc). unfold split in *.
  rewrite split_from_snoc_space by exact Hc. exact IH.
Qed.

Lemma clean_text_after_strip (t : text) : clean_text (strip t) = clean_text t.
Proof.
  unfold clean_text, re_sub_non_bmp, strip, rstrip.
  rewrite split_filter_rev_lstrip, rev_involutive, split_filter_lstrip.
  reflexivity.
Qed.

(** Stripping a text before sanitizing it changes nothing: the sanitizer
    already drops whitespace at both ends. *)
Theorem clean_text_strip (t : text) : clean_text (strip t) = clean_text t.
Proof. apply clean_text_after_strip. Qed.

End SanitizerMore.

(** ** The note generator, further *)

Section GeneratorMore.

Variable env : Env.

(** A reply that is already clean and short comes back as the note,
    unchanged and without a warning. *)
Theorem generate_note_clean_reply (profile : gmap string pyval) c tr
    name position resp d r :
  profile !! "name" = Some name ->
  profile !! "current_position" = Some position ->
  requests_post env tr (note_request name position) = Ok resp ->
  status_code resp = 200%N ->
  resp_json resp = Ok (JDict d) ->
  d !! "response" = Some (PStr r) ->
  Forall (fun ch => is_bmp ch = true) r ->
  single_spaced r = true ->
  length r <= 200 ->
  generate_connection_note env profile c tr =
    (Ok r, c, [EPost (note_request name position)]).
Proof.
  intros Hn Hp Hpost Hs Hj Hd Hbmp Hsp Hlen.
  rewrite (generate_connection_note_success env profile c tr name position resp d r)
    by assumption.
  rewrite clean_text_after_strip, (clean_text_fixed r Hbmp Hsp).
  unfold note_limit. rewrite firstn_all2 by exact Hlen.
  destruct (200 <? length r) eqn:E; [| reflexivity].
  apply Nat.ltb_lt in E. lia.
Qed.

(** A 200 answer without a usable [response] field: an absent field gives
    the empty note, not the fallback; a field that is no string, a body
    that is no JSON object and a body that does not parse give the
    fallback. *)
Theorem generate_note_odd_answers (profile : gmap string pyval) c tr
    name position resp :
  profile !! "name" = Some name ->
  profile !! "current_position" = Some position ->
  requests_post env tr (note_request name position) = Ok resp ->
  status_code resp = 200%N ->
  match resp_json resp with
  | Ok (JDict d) =>
      match d !! "response" with
      | None =>
          generate_connection_note env profile c tr =
            (Ok [], c, [EPost (note_request name position)])
      | Some (POther _) =>
          outcome (generate_connection_note env profile c tr) = Ok FALLBACK_NOTE
      | Some (PStr _) => True
      end
  | Ok JOther =>
      outcome (generate_connection_note env profile c tr) = Ok FALLBACK_NOTE
  | Raise _ =>
      outcome (generate_connection_note env profile c tr) = Ok FALLBACK_NOTE
  end.
Proof.
  intros Hn Hp Hpost Hs.
  unfold generate_connection_note, try_except, note_attempt, bind, getitem.
  rewrite Hn, Hp. cbn [ret]. rewrite !app_nil_r.
  unfold post, call. rewrite Hpost, Hs. cbn [N.eqb Pos.eqb].
  unfold response_json, json_get, val_strip.
  destruct (resp_json resp) as [[d|]|e]; cbn [ret raise];
    [| reflexivity | reflexivity].
  destruct (d !! "response") as [[r|o]|]; cbn [ret raise];
    [exact I | reflexivity | reflexivity].
Qed.

(** The generator posts one request when the profile has a name and a
    position, whatever the answer is, and none otherwise: there is no
    retry. *)
Theorem generate_note_one_request (profile : gmap string pyval) c tr :
  posts (emitted (generate_connection_note env profile c tr)) =
    match profile !! "name", profile !! "current_position" with
    | Some name, Some position => [note_request name position]
    | _, _ => []
    end.
Proof.
  unfold generate_connection_note, try_except, note_attempt, bind, getitem,
    print, printable, emitted.
  cbn [forallb arg_printable andb]. unfold emit.
  destruct (profile !! "name") as [name|]; [| reflexivity].
  destruct (profile !! "current_position") as [position|]; [| reflexivity].
  cbn [ret]. rewrite !app_nil_r. unfold post, call.
  destruct (requests_post env tr (note_request name position)) as [resp|e];
    [| reflexivity].
  destruct (status_code resp =? 200)%N;
    [| destruct (console_encodes env (resp_text resp) && true); reflexivity].
  unfold response_json, json_get, val_strip.
  destruct (resp_json resp) as [[d|]|e]; cbn [ret raise];
    [| reflexivity | reflexivity].
  destruct (d !! "response") as [[r|o]|]; cbn [ret raise].
  - destruct (note_limit <? length (clean_text (strip r))); reflexivity.
  - reflexivity.
  - reflexivity.
Qed.

Lemma contains_startswith (p t : text) :
  startswith t p = true -> contains p t = true.
Proof. intros H. destruct t; cbn [contains]; rewrite H; reflexivity. Qed.

Lemma startswith_app (p rest : text) : startswith (p ++ rest) p = true.
Proof.
  induction p as [|a p IH]; [destruct rest; reflexivity |].
  cbn. rewrite N.eqb_refl. exact IH.
Qed.

Lemma contains_app_r (p before t : text) :
  contains p t = true -> contains p (before ++ t) = true.
Proof.
  intros H. induction before as [|a before IH]; [exact H |].
  cbn [app contains]. rewrite IH. apply orb_true_r.
Qed.

Lemma contains_middle (p before rest : text) :
  contains p (before ++ p ++ rest) = true.
Proof. apply contains_app_r, contains_startswith, startswith_app. Qed.

(** The request of the generator goes to the fixed address with model
    llama2 and streaming off, and its prompt holds the profile's name and
    position as they print. *)
Theorem note_request_names_profile (name position : pyval) :
  req_url (note_request name position) = OLLAMA_URL
  /\ req_model (note_request name position) = of_string "llama2"
  /\ req_stream (note_request name position) = false
  /\ contains (render name) (req_prompt (note_request name position)) = true
  /\ contains (render position) (req_prompt (note_request name position)) = true.
Proof.
  repeat split.
  - cbn [note_request req_prompt]. unfold note_prompt. apply contains_middle.
  - cbn [note_request req_prompt]. unfold note_prompt.
    do 5 apply contains_app_r. apply contains_startswith, startswith_app.
Qed.

End GeneratorMore.

Lemma generate_note_clean_reply_witness :
  generate_connection_note (plain_env (replies clean_reply) []) jane started [] =
    (Ok clean_reply, started,
     [EPost (note_request (PStr (of_string "Jane Doe"))
                          (PStr (of_string "Engineer")))]).
Proof.
  apply (generate_note_clean_reply (plain_env (replies clean_reply) []) jane
           started [] _ _
           {| status_code := 200;
              resp_json := Ok (JDict {[ "response" := PStr clean_reply ]});
              resp_text := clean_reply |}
           {[ "response" := PStr clean_reply ]} clean_reply);
    try reflexivity.
  - repeat constructor.
  - vm_compute. lia.
Defined.

Lemma generate_note_odd_answers_witness :
  generate_connection_note (plain_env replies_nothing []) jane started [] =
    (Ok [], started,
     [EPost (note_request (PStr (of_string "Jane Doe"))
                          (PStr (of_string "Engineer")))]).
Proof.
  exact (generate_note_odd_answers (plain_env replies_nothing []) jane started []
           (PStr (of_string "Jane Doe")) (PStr (of_string "Engineer"))
           {| status_code := 200;
              resp_json := Ok (JDict {[ "done" := POther (of_string "True") ]});
              resp_text := of_string "{}" |}
           eq_refl eq_refl eq_refl eq_refl).
Defined.

(** ** The standalone client, further *)

(** [generate_text] posts its request once the announcement is printed:
    exactly one request, with the prompt and the model it was given and
    streaming off, whatever the service answers. When the console cannot
    write the model, the announcement raises inside the [try] block and no
    request is posted at all. *)
Theorem generate_text_one_request (env : Env) (prompt model : text) c tr :
  exists rest,
    emitted (LlamaClient.generate_text env prompt model c tr) =
      (if console_encodes env model
       then [EPrint LlamaClient.SENDING [AText model];
             EPost (LlamaClient.text_request prompt model)]
       else []) ++ rest
    /\ posts rest = []
    /\ req_prompt (LlamaClient.text_request prompt model) = prompt
    /\ req_model (LlamaClient.text_request prompt model) = model
    /\ req_stream (LlamaClient.text_request prompt model) = false.
Proof.
  unfold LlamaClient.generate_text, try_except, bind, print, printable, post,
    call, emitted.
  cbn [forallb arg_printable andb]. rewrite andb_true_r.
  destruct (console_encodes env model).
  2: { eexists; (split; [reflexivity | repeat split]). }
  unfold emit. cbn [fst snd app].
  destruct (requests_post env _ _) as [resp|e].
  - destruct (status_code resp =? 200)%N.
    + unfold response_json, json_get, val_strip.
      destruct (resp_json resp) as [[d|]|e]; cbn [ret raise app].
      * destruct (d !! "response") as [[r|o]|]; cbn [ret raise app];
          eexists; (split; [reflexivity | repeat split]).
      * eexists; (split; [reflexivity | repeat split]).
      * destruct e; eexists; (split; [reflexivity | repeat split]).
    + destruct (console_encodes env (resp_text resp) && true);
        eexists; (split; [reflexivity | repeat split]).
  - destruct e; eexists; (split; [reflexivity | repeat split]).
Qed.

(** ** The login *)

Section Login.

Variable env : Env.

Ltac step_any :=
  apply spec_bind with (Q1 := any);
  [spec_auto; try reflexivity; try exact I | intros ? _ | intros; exact I].

(** A verdict of true rests on an address read after the click. *)
Lemma login_true_evidence c tr :
  outcome (login env c tr) = Ok true ->
  exists before after u,
    emitted (login env c tr) = before ++ ECurrentUrl :: after
    /\ existsb is_login_click before = true
    /\ driver_current_url env (tr ++ before) = Ok u
    /\ landed_on u = true.
Proof.
  unfold login, try_except, get, until_presence, until_clickable, send_keys,
    click, current_url, via_driver, get_self, call, print, printable, sleep,
    outcome, emitted.
  cbn [forallb arg_printable andb]. unfold emit, bind.
  destruct (driver c) eqn:Hdrv; [| intros H; discriminate H].
  cbn [ret raise app fst snd].
  match goal with
  | |- context [driver_get env ?t ?u] =>
      destruct (driver_get env t u) as [[]|?]; [| intros H; discriminate H]
  end.
  rewrite ?Hdrv; cbn [ret raise app fst snd].
  match goal with
  | |- context [wait_presence env ?t ?l] =>
      destruct (wait_presence env t l) as [e1|?]; [| intros H; discriminate H]
  end.
  rewrite ?Hdrv; cbn [ret raise app fst snd].
  match goal with
  | |- context [elem_send_keys env ?t ?e ?k] =>
      destruct (elem_send_keys env t e k) as [[]|?]; [| intros H; discriminate H]
  end.
  rewrite ?Hdrv; cbn [ret raise app fst snd].
  match goal with
  | |- context [wait_presence env ?t ?l] =>
      destruct (wait_presence env t l) as [e2|?]; [| intros H; discriminate H]
  end.
  rewrite ?Hdrv; cbn [ret raise app fst snd].
  match goal with
  | |- context [elem_send_keys env ?t ?e ?k] =>
      destruct (elem_send_keys env t e k) as [[]|?]; [| intros H; discriminate H]
  end.
  rewrite ?Hdrv; cbn [ret raise app fst snd].
  match goal with
  | |- context [wait_clickable env ?t ?l] =>
      destruct (wait_clickable env t l) as [e3|?]; [| intros H; discriminate H]
  end.
  rewrite ?Hdrv; cbn [ret raise app fst snd].
  match goal with
  | |- context [elem_click env ?t ?e] =>
      destruct (elem_click env t e) as [[]|?]; [| intros H; discriminate H]
  end.
  rewrite ?Hdrv; cbn [ret raise app fst snd].
  set (form := [EPrint "Logging into LinkedIn..." [];
                EGet (of_string "https://www.linkedin.com/login");
                ESleep (Seconds 2);
                EPrint "Entering email..." [];
                EWaitPresence (ById "username"); ESendKeys e1 (email c);
                EPrint "Entering password..." [];
                EWaitPresence (ById "password"); ESendKeys e2 (password c);
                EPrint "Clicking login button..." [];
                EWaitClickable (ByCss "button[type='submit']"); EClick e3;
                ESleep (Seconds 5)]).
  match goal with
  | |- context [driver_current_url env ?h] =>
      replace h with (tr ++ form)
        by (subst form; repeat (rewrite <- app_assoc; cbn [app]);
            rewrite ?app_nil_r; reflexivity)
  end.
  destruct (driver_current_url env (tr ++ form)) as [u1|?] eqn:Hu1;
    [| intros H; discriminate H].
  rewrite ?Hdrv; cbn [ret raise app fst snd].
  destruct (contains (of_string "feed") u1) eqn:Hfeed.
  - cbn [ret raise app fst snd]. intros _.
    exists form. eexists. exists u1.
    split; [reflexivity |]. split; [reflexivity |]. split; [exact Hu1 |].
    unfold landed_on. rewrite Hfeed. reflexivity.
  - rewrite ?Hdrv; cbn [ret raise app fst snd].
    match goal with
    | |- context [driver_current_url env ?h] =>
        replace h with (tr ++ form ++ [ECurrentUrl])
          by (subst form; repeat (rewrite <- app_assoc; cbn [app]);
              rewrite ?app_nil_r; reflexivity)
    end.
    destruct (driver_current_url env (tr ++ form ++ [ECurrentUrl])) as [u2|?] eqn:Hu2;
      [| intros H; discriminate H].
    rewrite ?Hdrv; cbn [ret raise app fst snd].
    destruct (contains (of_string "mynetwork") u2) eqn:Hnet.
    + cbn [ret raise app fst snd]. intros _.
      exists (form ++ [ECurrentUrl]). eexists. exists u2.
      split; [reflexivity |]. split; [reflexivity |]. split; [exact Hu2 |].
      unfold landed_on. rewrite Hnet. apply orb_true_r.
    + rewrite ?Hdrv; cbn [ret raise app fst snd].
      match goal with
      | |- context [driver_current_url env ?h] =>
          destruct (driver_current_url env h) as [u3|?];
            [| intros H; discriminate H]
      end.
      cbn [ret raise app fst snd].
      destruct (console_encodes env u3 && true); intros H; discriminate H.
Qed.

(** [login] always returns a verdict and leaves [self] as it was; and the
    verdict is true only when an address the browser gave after the click
    on the login button holds "feed" or "mynetwork": the trace has a
    reading of the address, preceded by the click, whose answer at that
    point of the history is such an address. *)
Theorem login_verdict c tr :
  (exists b, outcome (login env c tr) = Ok b)
  /\ final (login env c tr) = c
  /\ (outcome (login env c tr) = Ok true ->
      exists before after u,
        emitted (login env c tr) = before ++ ECurrentUrl :: after
        /\ existsb is_login_click before = true
        /\ driver_current_url env (tr ++ before) = Ok u
        /\ landed_on u = true).
Proof.
  destruct (login_returns env c tr) as (H1 & H2 & _).
  split; [destruct (outcome _) as [b|e]; [exists b; reflexivity | contradiction] |].
  split; [exact H2 |].
  apply login_true_evidence.
Qed.

(** With a browser that does what it is asked and a stable address [u]
    after the click, [login] types the email into the username field, the
    password into the password field, clicks the submit button and returns
    whether [u] holds "feed" or "mynetwork". *)
Theorem login_cooperative c tr (e1 e2 e3 : elem) (u : text) :
  driver c = true ->
  (forall tr', driver_get env tr' LOGIN_URL = Ok tt) ->
  (forall tr', wait_presence env tr' (ById "username") = Ok e1) ->
  (forall tr', elem_send_keys env tr' e1 (email c) = Ok tt) ->
  (forall tr', wait_presence env tr' (ById "password") = Ok e2) ->
  (forall tr', elem_send_keys env tr' e2 (password c) = Ok tt) ->
  (forall tr', wait_clickable env tr' (ByCss "button[type='submit']") = Ok e3) ->
  (forall tr', elem_click env tr' e3 = Ok tt) ->
  (forall tr', driver_current_url env tr' = Ok u) ->
  outcome (login env c tr) = Ok (landed_on u)
  /\ exists readings,
       emitted (login env c tr) =
         [EPrint "Logging into LinkedIn..." []; EGet LOGIN_URL; ESleep (Seconds 2);
          EPrint "Entering email..." [];
          EWaitPresence (ById "username"); ESendKeys e1 (email c);
          EPrint "Entering password..." [];
          EWaitPresence (ById "password"); ESendKeys e2 (password c);
          EPrint "Clicking login button..." [];
          EWaitClickable (ByCss "button[type='submit']"); EClick e3;
          ESleep (Seconds 5)] ++ readings
       /\ Forall (fun ev => is_typing ev = false) readings.
Proof.
  intros Hdrv Hget Huser Hk1 Hpass Hk2 Hbtn Hclick Hurl.
  unfold login, try_except, get, until_presence, until_clickable, send_keys,
    click, current_url, via_driver, get_self, call, print, printable, sleep,
    landed_on, outcome, emitted.
  cbn [forallb arg_printable andb]. unfold emit, bind. fold LOGIN_URL.
  repeat (first [rewrite Hdrv | rewrite Hget | rewrite Huser | rewrite Hk1
                | rewrite Hpass | rewrite Hk2 | rewrite Hbtn | rewrite Hclick
                | rewrite Hurl];
          cbn [ret app fst snd]).
  destruct (contains (of_string "feed") u); cbn [ret app fst snd orb].
  - split; [reflexivity |]. eexists. split; [reflexivity | repeat constructor].
  - repeat (first [rewrite Hdrv | rewrite Hurl]; cbn [ret app fst snd]).
    destruct (contains (of_string "mynetwork") u); cbn [ret app fst snd].
    + split; [reflexivity |]. eexists. split; [reflexivity | repeat constructor].
    + repeat (first [rewrite Hdrv | rewrite Hurl]; cbn [ret app fst snd]).
      destruct (console_encodes env u && true); cbn [ret raise app fst snd];
        (split; [reflexivity |]; eexists; split; [reflexivity | repeat constructor]).
Qed.

(** When the username field never appears, [login] returns false without
    typing or clicking anything: no credential leaves the program. *)
Theorem login_without_form c tr :
  (forall tr', raises (wait_presence env tr' (ById "username"))) ->
  outcome (login env c tr) = Ok false
  /\ Forall (fun ev => is_typing ev = false) (emitted (login env c tr)).
Proof.
  intros Hform.
  assert (H : spec (fun ev => is_typing ev = false) (fun r => r = Ok false)
                (login env)).
  { unfold login.
    apply spec_try_except with (Q1 := raises).
    - do 4 (apply spec_bind with (Q1 := any);
            [spec_auto; reflexivity | intros ? _ | intros; exact I]).
      apply spec_bind with (Q1 := raises);
        [| intros field [] | intros; exact I].
      unfold until_presence. apply spec_via_driver; [| exact I].
      apply spec_call; [reflexivity | exact Hform].
    - intros a [].
    - intros e _.
      apply spec_bind with (Q1 := returns);
        [spec_auto; reflexivity | intros ? _ | intros ? []].
      apply spec_ret. reflexivity. }
  destruct (H c tr) as (H1 & _ & H2). split; assumption.
Qed.

End Login.

Lemma login_cooperative_witness :
  outcome (login (plain_env unreachable []) started []) = Ok true.
Proof.
  exact (proj1 (login_cooperative (plain_env unreachable []) started [] 0 0 0 FEED
                  eq_refl (fun _ => eq_refl) (fun _ => eq_refl) (fun _ => eq_refl)
                  (fun _ => eq_refl) (fun _ => eq_refl) (fun _ => eq_refl)
                  (fun _ => eq_refl) (fun _ => eq_refl))).
Defined.

Lemma login_verdict_witness :
  exists before after u,
    emitted (login (plain_env unreachable []) started [])
    = before ++ ECurrentUrl :: after
    /\ existsb is_login_click before = true
    /\ driver_current_url (plain_env unreachable []) ([] ++ before) = Ok u
    /\ landed_on u = true.
Proof.
  destruct (login_verdict (plain_env unreachable []) started []) as (_ & _ & H).
  apply H. vm_compute. reflexivity.
Defined.

Lemma login_without_form_witness :
  outcome (login no_form_env started []) = Ok false
  /\ Forall (fun ev => is_typing ev = false) (emitted (login no_form_env started [])).
Proof.
  apply login_without_form. intros tr'. exact I.
Defined.

(** ** Evidence for what a computation returns *)

Section Evidence.

Context {A B : Type} (P : event -> bool).

Lemma witnessed_ret (good : A -> bool) (a : A) :
  good a = false -> witnessed good P (ret a).
Proof. intros Ha c tr a' [= <-] Hg. congruence. Qed.

Lemma witnessed_raise (good : A -> bool) (e : exn) :
  witnessed good P (raise e).
Proof. intros c tr a H. discriminate H. Qed.

Lemma witnessed_emit (good : unit -> bool) (ev : event) :
  P ev = true -> witnessed good P (emit ev).
Proof. intros HP c tr a _ _. cbn. rewrite HP. reflexivity. Qed.

Lemma witnessed_call (good : A -> bool) (ev : event) (answer : trace -> result A) :
  P ev = true -> witnessed good P (call ev answer).
Proof. intros HP c tr a _ _. cbn. rewrite HP. reflexivity. Qed.

Lemma witnessed_try_except (good : A -> bool) (m : M A) (h : exn -> M A) :
  witnessed good P m -> (forall e, witnessed good P (h e)) ->
  witnessed good P (try_except m h).
Proof.
  intros Hm Hh c tr a. specialize (Hm c tr).
  unfold try_except, outcome, emitted in *.
  destruct (m c tr) as [[[x|e] c1] o1]; cbn [fst snd] in *.
  - intros Hx Hg. exact (Hm a Hx Hg).
  - specialize (Hh e c1 (tr ++ o1)). unfold outcome, emitted in Hh.
    destruct (h e c1 (tr ++ o1)) as [[r c2] o2]. cbn [fst snd] in *.
    intros Hr Hg. rewrite existsb_app, (Hh a Hr Hg). apply orb_true_r.
Qed.

End Evidence.

Section EvidenceBind.

Context {A B : Type} (P : event -> bool).

(** The evidence comes from what follows. *)
Lemma witnessed_bind_tail (good : B -> bool) (m : M A) (f : A -> M B) :
  (forall x, witnessed good P (f x)) -> witnessed good P (bind m f).
Proof.
  intros Hf c tr b. unfold bind, outcome, emitted.
  destruct (m c tr) as [[[x|e] c1] o1]; cbn [fst snd].
  - specialize (Hf x c1 (tr ++ o1)). unfold outcome, emitted in Hf.
    destruct (f x c1 (tr ++ o1)) as [[r c2] o2]. cbn [fst snd] in *.
    intros Hr Hg. rewrite existsb_app, (Hf b Hr Hg). apply orb_true_r.
  - intros H. discriminate H.
Qed.

(** The evidence comes from the first step, where its value is [good1], and
    from what follows where it is not. *)
Lemma witnessed_bind_head (good1 : A -> bool) (good : B -> bool)
    (m : M A) (f : A -> M B) :
  witnessed good1 P m ->
  (forall x, good1 x = false -> witnessed good P (f x)) ->
  witnessed good P (bind m f).
Proof.
  intros Hm Hf c tr b. specialize (Hm c tr). unfold bind, outcome, emitted in *.
  destruct (m c tr) as [[[x|e] c1] o1]; cbn [fst snd] in *.
  - destruct (good1 x) eqn:Hx.
    + destruct (f x c1 (tr ++ o1)) as [[r c2] o2]. cbn [fst snd].
      intros _ _. rewrite existsb_app, (Hm x eq_refl Hx). reflexivity.
    + specialize (Hf x Hx c1 (tr ++ o1)). unfold outcome, emitted in Hf.
      destruct (f x c1 (tr ++ o1)) as [[r c2] o2]. cbn [fst snd] in *.
      intros Hr Hg. rewrite existsb_app, (Hf b Hr Hg). apply orb_true_r.
  - intros H. discriminate H.
Qed.

End EvidenceBind.

Lemma witnessed_via_driver {A} (P : event -> bool) (good : A -> bool) (m : M A) :
  witnessed good P m -> witnessed good P (via_driver m).
Proof.
  intros Hm. unfold via_driver. apply witnessed_bind_tail.
  intros c. destruct (driver c); [exact Hm | apply witnessed_raise].
Qed.

Lemma witnessed_for_each {A R} (P : event -> bool) (good : option R -> bool)
    (xs : list A) (body : A -> M (option R)) :
  good None = false ->
  (forall x, witnessed good P (body x)) ->
  witnessed good P (for_each xs body).
Proof.
  intros Hnone Hb. induction xs as [|x xs IH]; cbn [for_each].
  - apply witnessed_ret. exact Hnone.
  - apply witnessed_bind_head with (good1 := good).
    + apply Hb.
    + intros [v|] Hv; [apply witnessed_ret; exact Hv | exact IH].
Qed.

Ltac evidence_leaf :=
  cbn; rewrite ?Nat.eqb_refl, ?String.eqb_refl; reflexivity.

(** Looks for the step that emits the evidence: in what follows a step
    first, then in the step itself. *)
Ltac wit :=
  cbn [negb];
  lazymatch goal with
  | |- witnessed _ _ (ret _) => apply witnessed_ret; reflexivity
  | |- witnessed _ _ (raise _) => apply witnessed_raise
  | |- witnessed _ _ (emit _) => apply witnessed_emit; evidence_leaf
  | |- witnessed _ _ (print _ _ _) =>
      unfold print; cbn [printable forallb arg_printable andb]; wit
  | |- witnessed _ _ (call _ _) => apply witnessed_call; evidence_leaf
  | |- witnessed _ _ (via_driver _) => apply witnessed_via_driver; wit
  | |- witnessed _ _ (bind _ _) =>
      first
        [ solve [apply witnessed_bind_tail; intros ?; wit]
        | solve [apply witnessed_bind_head with (good1 := always);
                 [wit | let H := fresh in intros ? H; discriminate H]]
        | solve [apply witnessed_bind_head with (good1 := is_true);
                 [wit | let H := fresh in
                        intros ? H; unfold is_true in H; subst; wit]]
        | solve [apply witnessed_bind_head with (good1 := is_some_true);
                 [wit | let H := fresh in
                        intros [[|]|] H; try discriminate H; wit]]
        | solve [apply witnessed_bind_head with (good1 := is_some);
                 [wit | let H := fresh in
                        intros [?|] H; try discriminate H; wit]] ]
  | |- witnessed _ _ (try_except _ _) =>
      apply witnessed_try_except; [wit | intros ?; wit]
  | |- witnessed _ _ (for_each _ _) =>
      apply witnessed_for_each; [reflexivity | intros ?; wit]
  | |- witnessed _ _ (if ?b then _ else _) => destruct b; wit
  | |- witnessed _ _ (match ?x with _ => _ end) => destruct x; wit
  | |- witnessed _ _ ?m => let h := head_of m in unfold h; wit
  end.

(** ** Clicks that are reported *)

Section Reported.

Variable env : Env.

Lemma click_button_safely_clicked (button : elem) (action_name : string) :
  witnessed is_true (is_click_on button)
    (click_button_safely env button action_name).
Proof. wit. Qed.

Lemma click_button_safely_line (button : elem) (action_name : string) :
  witnessed is_true (is_clicked_line action_name)
    (click_button_safely env button action_name).
Proof. wit. Qed.

(** [click_button_safely] returns true only after it dispatched the script
    click on the button and reported it. *)
Theorem click_button_safely_true (button : elem) (action_name : string) c tr :
  outcome (click_button_safely env button action_name c tr) = Ok true ->
  existsb (is_click_on button)
    (emitted (click_button_safely env button action_name c tr)) = true
  /\ existsb (is_clicked_line action_name)
       (emitted (click_button_safely env button action_name c tr)) = true.
Proof.
  intros H. split.
  - exact (click_button_safely_clicked button action_name c tr true H eq_refl).
  - exact (click_button_safely_line button action_name c tr true H eq_refl).
Qed.

Lemma find_and_click_send_button_line :
  witnessed is_true (is_clicked_line "Send") (find_and_click_send_button env).
Proof. wit. Qed.

Lemma find_and_click_send_button_returns :
  spec (fun _ => True) returns (find_and_click_send_button env).
Proof. spec_auto; exact I. Qed.

(** [find_and_click_send_button] never raises, leaves [self] as it was, and
    returns true only after a button was clicked and the click reported
    under the name "Send". *)
Theorem find_and_click_send_button_true c tr :
  (exists b, outcome (find_and_click_send_button env c tr) = Ok b)
  /\ final (find_and_click_send_button env c tr) = c
  /\ (outcome (find_and_click_send_button env c tr) = Ok true ->
      existsb (is_clicked_line "Send")
        (emitted (find_and_click_send_button env c tr)) = true).
Proof.
  destruct (find_and_click_send_button_returns c tr) as (H1 & H2 & _).
  split; [destruct (outcome _) as [b|e]; [exists b; reflexivity | contradiction] |].
  split; [exact H2 |].
  intros H. exact (find_and_click_send_button_line c tr true H eq_refl).
Qed.

Lemma connect_with_profile_connect_line (url : pyval) (profile : gmap string pyval) :
  witnessed is_true (is_clicked_line "Connect")
    (connect_with_profile env url profile).
Proof. wit. Qed.

Lemma connect_with_profile_note_line (url : pyval) (profile : gmap string pyval) :
  witnessed is_true (is_clicked_line "Add note")
    (connect_with_profile env url profile).
Proof. wit. Qed.

Lemma connect_with_profile_note_entry (url : pyval) (profile : gmap string pyval) :
  witnessed is_true is_note_entry (connect_with_profile env url profile).
Proof. wit. Qed.

Lemma connect_with_profile_send_line (url : pyval) (profile : gmap string pyval) :
  witnessed is_true (is_clicked_line "Send")
    (connect_with_profile env url profile).
Proof. wit. Qed.

Lemma connect_with_profile_sent_line (url : pyval) (profile : gmap string pyval) :
  witnessed is_true is_sent_line (connect_with_profile env url profile).
Proof. wit. Qed.

(** [connect_with_profile] returns true only after the whole path was
    walked: a connect button and a note button were clicked, a note was
    written into a textarea, and the send click was reported. *)
Theorem connect_with_profile_true (url : pyval) (profile : gmap string pyval) c tr :
  outcome (connect_with_profile env url profile c tr) = Ok true ->
  existsb (is_clicked_line "Connect")
    (emitted (connect_with_profile env url profile c tr)) = true
  /\ existsb (is_clicked_line "Add note")
       (emitted (connect_with_profile env url profile c tr)) = true
  /\ existsb is_note_entry
       (emitted (connect_with_profile env url profile c tr)) = true
  /\ existsb (is_clicked_line "Send")
       (emitted (connect_with_profile env url profile c tr)) = true
  /\ existsb is_sent_line
       (emitted (connect_with_profile env url profile c tr)) = true.
Proof.
  intros H.
  split; [exact (connect_with_profile_connect_line url profile c tr true H eq_refl) |].
  split; [exact (connect_with_profile_note_line url profile c tr true H eq_refl) |].
  split; [exact (connect_with_profile_note_entry url profile c tr true H eq_refl) |].
  split; [exact (connect_with_profile_send_line url profile c tr true H eq_refl) |].
  exact (connect_with_profile_sent_line url profile c tr true H eq_refl).
Qed.

End Reported.

Lemma click_button_safely_true_witness :
  existsb (is_click_on 7)
    (emitted (click_button_safely sending_env 7 "Connect" started [])) = true
  /\ existsb (is_clicked_line "Connect")
       (emitted (click_button_safely sending_env 7 "Connect" started [])) = true.
Proof. apply click_button_safely_true. reflexivity. Defined.

Lemma find_and_click_send_button_true_witness :
  existsb (is_clicked_line "Send")
    (emitted (find_and_click_send_button sending_env started [])) = true.
Proof.
  destruct (find_and_click_send_button_true sending_env started []) as (_ & _ & H).
  apply H. vm_compute. reflexivity.
Defined.

Lemma connect_with_profile_true_witness :
  existsb is_note_entry
    (emitted (connect_with_profile sending_env
                (PStr (of_string "linkedin.com/in/janedoe")) jane started [])) = true.
Proof.
  destruct (connect_with_profile_true sending_env
              (PStr (of_string "linkedin.com/in/janedoe")) jane started [])
    as (_ & _ & H & _).
  - vm_compute. reflexivity.
  - exact H.
Defined.

(** ** What the workflow does to the page *)

Section Page.

Variable env : Env.

(** When no button text holds "send" or "done", the send step clicks
    nothing: it returns false without a visibility check or a script. *)
Theorem find_and_click_send_button_filters c tr :
  (forall tr' e,
     match elem_text env tr' e with
     | Ok t => send_text (str_lower env t) = false
     | Raise _ => True
     end) ->
  outcome (find_and_click_send_button env c tr) = Ok false
  /\ Forall (fun ev => is_page_action ev = false)
       (emitted (find_and_click_send_button env c tr)).
Proof.
  intros Htext.
  assert (H : spec (fun ev => is_page_action ev = false) (fun r => r = Ok false)
                (find_and_click_send_button env)).
  { unfold find_and_click_send_button.
    apply spec_bind with (Q1 := fun r => r = Ok None);
      [| intros r [= ->]; apply spec_ret; reflexivity
       | intros e He; discriminate He].
    apply spec_for_each with (Qb := fun r => r = Ok None); [| reflexivity | auto | auto].
    intros selector _.
    apply spec_try_except with (Q1 := fun r => r = Ok None \/ raises r);
      [| intros a [Ha | []]; exact Ha | intros e _; apply spec_ret; reflexivity].
    apply spec_bind with (Q1 := any);
      [spec_auto; reflexivity | intros buttons _ | intros; right; exact I].
    apply spec_for_each with (Qb := fun r => r = Ok None);
      [| left; reflexivity | intros v Hv; discriminate Hv
       | intros e He; discriminate He].
    intros button _.
    apply spec_try_except with (Q1 := fun r => r = Ok None \/ raises r);
      [| intros a [Ha | []]; exact Ha | intros e _; apply spec_ret; reflexivity].
    apply spec_bind with (Q1 := fun r => match r with
                                         | Ok t => send_text t = false
                                         | Raise _ => True
                                         end);
      [| intros t Ht | intros; right; exact I].
    - unfold text_lower.
      apply spec_bind with (Q1 := fun r => match r with
                                           | Ok t => send_text (str_lower env t) = false
                                           | Raise _ => True
                                           end);
        [| intros t Ht; apply spec_ret; exact Ht | intros; exact I].
      apply spec_call; [reflexivity | intros tr'; apply Htext].
    - unfold send_text in Ht. rewrite Ht. apply spec_ret. left. reflexivity. }
  destruct (H c tr) as (H1 & _ & H2). split; assumption.
Qed.

(** [connect_with_profile] navigates nowhere but to the address it was
    given, with "https://" put in front unless it starts with "http"; for
    an address that is no string it does not navigate at all. *)
Theorem connect_with_profile_navigates (url : pyval) (profile : gmap string pyval) c tr :
  Forall (navigates_to url) (emitted (connect_with_profile env url profile c tr)).
Proof.
  assert (H : spec (navigates_to url) any (connect_with_profile env url profile)).
  { unfold connect_with_profile.
    apply spec_try_except with (Q1 := any);
      [| intros; exact I | intros e _; spec_auto; exact I].
    apply spec_bind with (Q1 := fun r => match r, url with
                                         | Ok u, PStr a => u = with_scheme a
                                         | Ok _, POther _ => False
                                         | Raise _, _ => True
                                         end);
      [| intros u Hu | intros; exact I].
    - unfold normalize_url. destruct url as [a|o].
      + unfold with_scheme. destruct (startswith a (of_string "http"));
          apply spec_ret; reflexivity.
      + apply spec_raise. exact I.
    - destruct url as [a|o]; [| contradiction]. subst u.
      apply spec_bind with (Q1 := any);
        [spec_auto; exact I | intros _ _ | intros; exact I].
      apply spec_bind with (Q1 := any); [| intros _ _ | intros; exact I].
      { unfold get. apply spec_via_driver; [| exact I].
        apply spec_call; [| intros; exact I].
        split; [reflexivity |]. unfold with_scheme.
        destruct (startswith a (of_string "http")) eqn:E; [exact E |].
        destruct a; reflexivity. }
      spec_auto; exact I. }
  destruct (H c tr) as (_ & _ & H2). exact H2.
Qed.

End Page.

Lemma find_and_click_send_button_filters_witness :
  outcome (find_and_click_send_button cancel_env started []) = Ok false
  /\ Forall (fun ev => is_page_action ev = false)
       (emitted (find_and_click_send_button cancel_env started [])).
Proof.
  apply find_and_click_send_button_filters. intros tr' e. reflexivity.
Defined.

(** ** Batches that stop early *)

Section Stops.

Variable env : Env.

(** A profile without a name stops the batch: the profiles before it, which
    have a url and a name the console can write, are processed, paused for
    and reported, the [KeyError] is printed, the browser is quit, and the
    profiles after it are never touched. *)
Theorem run_stops_at_nameless (file : string) c tr c1 o1 c2 o2
    (good rest : list (gmap string pyval)) (bad : gmap string pyval) :
  setup_driver env c tr = (Ok tt, c1, o1) ->
  login env c1 (tr ++ o1) = (Ok true, c2, o2) ->
  json_load env (tr ++ o1 ++ o2) file = Ok (good ++ bad :: rest) ->
  Forall (reportable env) good ->
  bad !! "name" = None ->
  exists out closing,
    emitted (run env file c tr) =
      o1 ++ o2 ++ [EOpen file] ++ out
      ++ [error_line (KeyError "name"); EQuit] ++ closing
    /\ pauses out = repeat (20, 40) (length good)
    /\ Forall2 names good (reported_outcomes out)
    /\ (closing = [] \/ closing = [EPrint "Browser closed." []]).
Proof.
  intros Hsetup Hlogin Hload Hwf Hbad.
  destruct (run_stops_at env file c tr c1 o1 c2 o2 good rest bad (KeyError "name")
              Hsetup Hlogin Hload Hwf)
    as (out & closing & Hrun & Hp & Hr & _ & Hc).
  { intros c' tr'. apply process_profile_nameless. exact Hbad. }
  exists out, closing. split; [exact Hrun |].
  split; [exact Hp | split; [exact Hr | exact Hc]].
Qed.

(** A profile file that cannot be read stops the run after the login: the
    error is printed and the browser is quit. *)
Theorem run_unreadable_file (file : string) c tr c1 o1 c2 o2 (e : exn) :
  setup_driver env c tr = (Ok tt, c1, o1) ->
  login env c1 (tr ++ o1) = (Ok true, c2, o2) ->
  json_load env (tr ++ o1 ++ o2) file = Raise e ->
  exists closing,
    emitted (run env file c tr) =
      o1 ++ o2 ++ [EOpen file; error_line e; EQuit] ++ closing
    /\ (closing = [] \/ closing = [EPrint "Browser closed." []]).
Proof.
  intros Hsetup Hlogin Hload.
  pose proof (setup_driver_started env c tr c1 o1 Hsetup) as Hdrv.
  destruct (login_returns env c1 (tr ++ o1)) as (_ & Hfin & _).
  rewrite Hlogin in Hfin. cbn in Hfin. subst c2.
  unfold run, try_finally, try_except. unfold bind at 1. rewrite Hsetup.
  unfold session. unfold bind at 1. rewrite Hlogin. cbn [negb].
  unfold bind at 1. unfold load_profiles, call.
  rewrite <- app_assoc, Hload.
  unfold bind, print, printable. cbn [forallb arg_printable andb].
      unfold emit, ret. cbn [app].
  match goal with
  | |- context [teardown env c1 ?h] =>
      destruct (teardown_started env c1 h Hdrv) as (r & closing & -> & Hc)
  end.
  exists closing. split.
  - unfold emitted, error_line. destruct r; cbn [snd];
      rewrite <- ?app_assoc; cbn [app]; reflexivity.
  - destruct Hc as [[_ ->] | [_ ->]]; [right | left]; reflexivity.
Qed.

End Stops.

Lemma run_stops_at_nameless_witness :
  exists out closing,
    emitted (run (plain_env unreachable [jane; ∅; jane]) "profile_data.json" fresh []) =
      emitted (setup_driver (plain_env unreachable [jane; ∅; jane]) fresh [])
      ++ emitted (login (plain_env unreachable [jane; ∅; jane]) (with_driver fresh)
                    (emitted (setup_driver (plain_env unreachable [jane; ∅; jane])
                                fresh [])))
      ++ [EOpen "profile_data.json"] ++ out
      ++ [error_line (KeyError "name"); EQuit] ++ closing
    /\ pauses out = repeat (20, 40) (length [jane])
    /\ Forall2 names [jane] (reported_outcomes out)
    /\ (closing = [] \/ closing = [EPrint "Browser closed." []]).
Proof.
  apply (run_stops_at_nameless (plain_env unreachable [jane; ∅; jane])
           "profile_data.json" fresh [] (with_driver fresh) _ (with_driver fresh) _
           [jane] [jane] ∅).
  - vm_compute. reflexivity.
  - vm_compute. reflexivity.
  - reflexivity.
  - constructor; [| constructor].
    exists (PStr (of_string "Jane Doe")), (PStr (of_string "linkedin.com/in/janedoe")).
    repeat split; vm_compute; reflexivity.
  - reflexivity.
Defined.

Lemma run_unreadable_file_witness :
  exists closing,
    emitted (run unreadable_env "profile_data.json" fresh []) =
      emitted (setup_driver unreadable_env fresh [])
      ++ emitted (login unreadable_env (with_driver fresh)
                    (emitted (setup_driver unreadable_env fresh [])))
      ++ [EOpen "profile_data.json";
          error_line (OtherException "FileNotFoundError"); EQuit] ++ closing
    /\ (closing = [] \/ closing = [EPrint "Browser closed." []]).
Proof.
  apply (run_unreadable_file unreadable_env "profile_data.json" fresh []
           (with_driver fresh) _ (with_driver fresh) _
           (OtherException "FileNotFoundError")).
  - vm_compute. reflexivity.
  - vm_compute. reflexivity.
  - reflexivity.
Defined.

(** ** Start and setup *)

Section Start.

Variable env : Env.

Lemma run_body_none (file : string) c tr :
  outcome (try_except (setup_driver env ;;; session env file)
             (fun e => print env "Error during execution: {}" [AExn e] ;;;
                       ret PyNone) c tr) = Ok PyNone.
Proof.
  unfold try_except. unfold bind at 1.
  destruct (setup_driver env c tr) as [[[[]|e] c1] o1].
  - destruct (session_none env file c1 (tr ++ o1)) as (HQ & _ & _).
    unfold outcome in *.
    destruct (session env file c1 (tr ++ o1)) as [[[v|e] c2] o2];
      cbn [fst snd] in *.
    + destruct HQ as [HQ | []]. exact HQ.
    + reflexivity.
  - reflexivity.
Qed.

(** [run] raises only what a failing quit raises, as its last action. *)
Lemma run_raises_quit (file : string) c tr (e : exn) :
  outcome (run env file c tr) = Raise e ->
  exists before,
    emitted (run env file c tr) = before ++ [EQuit]
    /\ driver_quit env (tr ++ before) = Raise e.
Proof.
  pose proof (run_body_none file c tr) as Hbody.
  unfold run, try_finally, outcome, emitted in *.
  destruct (try_except _ _ c tr) as [[r c1] o1]. cbn [fst snd] in Hbody. subst r.
  unfold teardown, quit, via_driver, bind, get_self, call, print, emit.
  cbn [app]. destruct (driver c1) eqn:Hdrv; cbn [app].
  - rewrite Hdrv. rewrite !app_nil_r.
    destruct (driver_quit env (tr ++ o1)) as [[]|e'] eqn:Hq; cbn [fst snd].
    + intros H. discriminate H.
    + intros [= ->]. exists o1. split; [reflexivity | exact Hq].
  - cbn [fst snd]. intros H. discriminate H.
Qed.

(** [main] raises in three cases only: what [load_dotenv] raises, before
    anything else happens; the [ValueError] of a missing or empty
    credential, before anything happens in the browser; and the exception
    of a failing quit as the last action. Nothing the browser, the service
    or the profile file does in between makes it raise, the message of
    every exception being writable on the console (see [arg_printable]). *)
Theorem main_raises_only (load_dotenv : result unit)
    (getenv_email getenv_password : option text) tr :
  (forall e,
     load_dotenv = Raise e ->
     main env load_dotenv getenv_email getenv_password tr = (Raise e, []))
  /\ (load_dotenv = Ok tt ->
      unset getenv_email || unset getenv_password = true ->
      main env load_dotenv getenv_email getenv_password tr
      = (Raise (OtherException "ValueError"), []))
  /\ (load_dotenv = Ok tt ->
      unset getenv_email || unset getenv_password = false ->
      forall e,
        fst (main env load_dotenv getenv_email getenv_password tr) = Raise e ->
        exists before,
          snd (main env load_dotenv getenv_email getenv_password tr)
          = before ++ [EQuit]
          /\ driver_quit env (tr ++ before) = Raise e).
Proof.
  unfold main, init.
  split; [intros e ->; reflexivity |].
  split; intros -> H; rewrite H; [reflexivity |].
  intros e.
  set (connector := {| email := default [] getenv_email;
                       password := default [] getenv_password;
                       headless := false; driver := false |}).
  pose proof (run_raises_quit "profile_data.json" connector tr) as Hq.
  unfold outcome, emitted in Hq.
  destruct (run env "profile_data.json" connector tr) as [[[v|e'] c1] out];
    cbn [fst snd] in *.
  - intros He. discriminate He.
  - intros [= ->]. apply Hq. reflexivity.
Qed.

End Start.

Lemma main_raises_only_witness :
  main (plain_env unreachable [jane]) (Ok tt)
    (Some (of_string "user@example.com")) None []
  = (Raise (OtherException "ValueError"), []).
Proof.
  destruct (main_raises_only (plain_env unreachable [jane]) (Ok tt)
              (Some (of_string "user@example.com")) None []) as (_ & H & _).
  apply H; reflexivity.
Defined.

(** ** Before and during setup *)

Section Setup.

Variable env : Env.

(** Called on a connector without a driver, [login] and
    [connect_with_profile] return false at their first use of the driver:
    nothing reaches the browser, the waits or the service. When the console
    cannot write the address, [connect_with_profile] returns false even
    earlier, at the line that announces the navigation. *)
Theorem without_driver (url : text) (profile : gmap string pyval) c tr :
  driver c = false ->
  login env c tr =
    (Ok false, c,
     [EPrint "Logging into LinkedIn..." [];
      EPrint "Login failed: {}" [AExn AttributeError]])
  /\ connect_with_profile env (PStr url) profile c tr =
       (Ok false, c,
        if console_encodes env (with_scheme url)
        then [EPrint "Navigating to profile: {}" [AText (with_scheme url)];
              EPrint "Error connecting with profile: {}" [AExn AttributeError]]
        else [EPrint "Error connecting with profile: {}"
                [AExn (OtherException "UnicodeEncodeError")]]).
Proof.
  intros Hdrv. split.
  - unfold login, try_except, get, via_driver, get_self, print, printable.
    cbn [forallb arg_printable andb]. unfold emit, bind.
    cbn [app]. rewrite Hdrv. reflexivity.
  - assert (Hnorm : normalize_url (PStr url) = ret (with_scheme url)).
    { unfold normalize_url, with_scheme.
      destruct (startswith url (of_string "http")); reflexivity. }
    unfold connect_with_profile, try_except. unfold bind at 1.
    rewrite Hnorm. unfold bind at 1. cbn [ret]. unfold bind at 1.
    unfold print at 1, printable. cbn [forallb arg_printable].
    rewrite andb_true_r.
    destruct (console_encodes env (with_scheme url)).
    + unfold emit at 1. unfold bind at 1. unfold bind at 1.
      unfold get, via_driver, get_self. unfold bind at 1. cbn [app].
      rewrite Hdrv. unfold raise, bind, print, printable.
      cbn [forallb arg_printable andb]. reflexivity.
    + unfold raise, bind, print, printable.
      cbn [forallb arg_printable andb]. reflexivity.
Qed.

(** [setup_driver] leaves [self] with a driver exactly when it had one or
    Chrome started, and it runs the script that masks the webdriver flag
    exactly when Chrome started. *)
Theorem setup_driver_assigns c tr :
  let started :=
    chrome_install env tr = Ok tt
    /\ chrome_start env (tr ++ [EInstall]) (chrome_options c) = Ok tt in
  (driver (final (setup_driver env c tr)) = true <-> driver c = true \/ started)
  /\ (In (EScript MASK_SCRIPT []) (emitted (setup_driver env c tr)) <-> started).
Proof.
  cbv zeta. rewrite setup_driver_steps.
  destruct (chrome_install env tr) as [[]|e].
  - destruct (chrome_start env (tr ++ [EInstall]) (chrome_options c)) as [[]|e].
    + unfold final, emitted. cbn. split; split; auto.
    + unfold final, emitted. cbn. split; split.
      * auto.
      * intros [H | [_ H]]; [exact H | discriminate H].
      * intros [H | [H | []]]; discriminate H.
      * intros [_ H]. discriminate H.
  - unfold final, emitted. cbn. split; split.
    + auto.
    + intros [H | [H _]]; [exact H | discriminate H].
    + intros [H | []]. discriminate H.
    + intros [H _]. discriminate H.
Qed.

End Setup.

Lemma without_driver_witness :
  login (plain_env unreachable []) fresh [] =
    (Ok false, fresh,
     [EPrint "Logging into LinkedIn..." [];
      EPrint "Login failed: {}" [AExn AttributeError]]).
Proof.
  apply (proj1 (without_driver (plain_env unreachable [])
                  (of_string "linkedin.com/in/janedoe") jane fresh [] eq_refl)).
Defined.

(** ** The click helper and the connect step, further *)

Section ClickMore.

Variable env : Env.

(** A usable button whose scripts run is clicked in the first attempt:
    one check, one scroll, one click, no backoff. *)
Theorem click_button_safely_first_attempt (button : elem) (action_name : string) c tr :
  driver c = true ->
  (forall tr', elem_is_displayed env tr' button = Ok true) ->
  (forall tr', elem_is_enabled env tr' button = Ok true) ->
  (forall tr' script, driver_execute_script env tr' script [SElem button] = Ok tt) ->
  click_button_safely env button action_name c tr =
    (Ok true, c,
     [EIsDisplayed button; EIsEnabled button;
      EScript SCROLL_SCRIPT [SElem button]; ESleep (Seconds 1);
      EScript CLICK_SCRIPT [SElem button];
      EPrint "Successfully clicked {} button" [AStr action_name]]).
Proof.
  intros Hdrv Hd He Hs.
  unfold click_button_safely, click_attempt, try_except, bind, is_displayed,
    is_enabled, execute_script, via_driver, get_self, call, print, printable,
    sleep.
  cbn [seq max_attempts for_each forallb arg_printable andb]. unfold bind, emit.
  repeat (first [rewrite Hd | rewrite He | rewrite Hs | rewrite Hdrv];
          cbn [ret app]).
  reflexivity.
Qed.

(** When the search for connect buttons finds none, the profile is given
    up at once: [connect_with_profile] returns false without a visibility
    check or a script. *)
Theorem connect_without_buttons (url : pyval) (profile : gmap string pyval) c tr :
  (forall tr',
     match driver_find_elements env tr' connect_selector with
     | Ok buttons => buttons = []
     | Raise _ => True
     end) ->
  outcome (connect_with_profile env url profile c tr) = Ok false
  /\ Forall (fun ev => is_page_action ev = false)
       (emitted (connect_with_profile env url profile c tr)).
Proof.
  intros Hfind.
  assert (H : spec (fun ev => is_page_action ev = false) (fun r => r = Ok false)
                (connect_with_profile env url profile)).
  { unfold connect_with_profile.
    apply spec_try_except with (Q1 := fun r => r = Ok false \/ raises r).
    - do 5 (apply spec_bind with (Q1 := any);
            [spec_auto; reflexivity | intros ? _ | intros; right; exact I]).
      apply spec_bind with (Q1 := fun r => match r with
                                           | Ok buttons => buttons = []
                                           | Raise _ => True
                                           end);
        [| intros buttons -> | intros; right; exact I].
      + unfold find_elements. apply spec_via_driver; [| exact I].
        apply spec_call; [reflexivity | exact Hfind].
      + apply spec_bind with (Q1 := fun r => r = Ok None);
          [apply spec_ret; reflexivity | intros r [= ->]
          | intros e He; discriminate He].
        apply spec_bind with (Q1 := returns);
          [spec_auto; reflexivity | intros ? _ | intros ? []].
        apply spec_ret. left. reflexivity.
    - intros b [Hb | []]. exact Hb.
    - intros e _.
      apply spec_bind with (Q1 := returns);
        [spec_auto; reflexivity | intros ? _ | intros ? []].
      apply spec_ret. reflexivity. }
  destruct (H c tr) as (H1 & _ & H2). split; assumption.
Qed.

End ClickMore.

Lemma click_button_safely_first_attempt_witness :
  click_button_safely sending_env 7 "Connect" started [] =
    (Ok true, started,
     [EIsDisplayed 7; EIsEnabled 7;
      EScript SCROLL_SCRIPT [SElem 7]; ESleep (Seconds 1);
      EScript CLICK_SCRIPT [SElem 7];
      EPrint "Successfully clicked {} button" [AStr "Connect"]]).
Proof.
  apply click_button_safely_first_attempt; intros; reflexivity.
Defined.

Lemma connect_without_buttons_witness :
  outcome (connect_with_profile (plain_env unreachable [])
             (PStr (of_string "linkedin.com/in/janedoe")) jane started []) = Ok false
  /\ Forall (fun ev => is_page_action ev = false)
       (emitted (connect_with_profile (plain_env unreachable [])
                   (PStr (of_string "linkedin.com/in/janedoe")) jane started [])).
Proof.
  apply connect_without_buttons. intros tr'. reflexivity.
Defined.
